(** * Face-recognition engine: thresholds, matching, statistics

    A shallow embedding of [advanced_face_recognition.py]
    (class [AdvancedFaceRecognition]) and the properties of its
    calibration, matching, quality and statistics code.

    Numbers.  Python floats are read as exact rationals ([Q]); the literal
    [0.1] is [1/10], and [float('inf')] is a separate constructor.  Python
    integers that only count are [nat], pixel indices are [Z].

    Exceptions.  A computation that may raise returns an [option]; the
    recognition loop, which mutates the statistics before it may raise,
    runs in a small state-and-exception monad so that the mutations made
    before the exception survive it, as they do in Python.

    Library calls whose code is not part of the repository (OpenCV, dlib's
    detector and encoder, the Euclidean norm, [statistics.stdev]) are
    Section variables. *)

From Stdlib Require Import QArith Qabs Qfield Lia Lqa.
From stdpp Require Import base option list strings gmap.

Local Open Scope string_scope.
Local Open Scope list_scope.

(** ** Python primitives *)

Module Py.

(** [x < y] and [x <= y] on floats, as booleans. *)
Definition ltb (x y : Q) : bool := negb (Qle_bool y x).
Definition leb (x y : Q) : bool := Qle_bool x y.

(** [min(a, b)] and [max(a, b)] with two positional arguments: the first
    argument is kept unless the second is strictly better. *)
Definition min (a b : Q) : Q := if ltb b a then b else a.
Definition max (a b : Q) : Q := if ltb a b then b else a.

(** A float that may be [float('inf')]. *)
Inductive float := Fin (q : Q) | Inf.

Fixpoint sum (l : list Q) : Q :=
  match l with
  | [] => 0%Q
  | x :: l' => (x + sum l')%Q
  end.

(** [statistics.mean]: raises [StatisticsError] on an empty sequence. *)
Definition mean (l : list Q) : option Q :=
  match l with
  | [] => None
  | _ => Some (sum l / inject_Z (Z.of_nat (length l)))%Q
  end.

(** [l[-n:]] for a positive literal [n]: the last [n] items, or all of
    [l] when it is shorter. *)
Definition last_n {A} (n : nat) (l : list A) : list A :=
  drop (length l - n) l.

(** Index normalisation of a slice bound against a length. *)
Definition clip (i : Z) (n : nat) : Z :=
  if (i <? 0)%Z then Z.max (i + Z.of_nat n) 0 else Z.min i (Z.of_nat n).

(** [l[a:b]] with integer bounds and step 1. *)
Definition slice {A} (a b : Z) (l : list A) : list A :=
  let lo := clip a (length l) in
  let hi := clip b (length l) in
  take (Z.to_nat (hi - lo)) (drop (Z.to_nat lo) l).

(** [numpy.argmin] over a one-dimensional array: the index of the first
    occurrence of the minimum.  [argmin_from] scans [l], whose first item
    has index [i], against the best value [b] seen so far at index [bi]. *)
Fixpoint argmin_from (l : list Q) (i bi : nat) (b : Q) : nat :=
  match l with
  | [] => bi
  | x :: l' =>
      if ltb x b then argmin_from l' (S i) i x
      else argmin_from l' (S i) bi b
  end.

(** [numpy.argmin] raises [ValueError] on an empty array. *)
Definition argmin (l : list Q) : option nat :=
  match l with
  | [] => None
  | x :: l' => Some (argmin_from l' 1 0 x)
  end.

End Py.

(** ** The exception-and-state monad of the recognition loop *)

Module Exn.

Section Monad.
Context {S : Type}.

(** A computation over a mutable [S]: the final state, and the value
    returned or [None] when an exception escaped. *)
Definition M (A : Type) : Type := S -> S * option A.

Definition ret {A} (a : A) : M A := fun s => (s, Some a).
Definition bind {A B} (m : M A) (k : A -> M B) : M B :=
  fun s =>
    match m s with
    | (s', Some a) => k a s'
    | (s', None) => (s', None)
    end.
Definition modify (f : S -> S) : M unit := fun s => (f s, Some tt).
Definition lift {A} (o : option A) : M A :=
  fun s => (s, o).

End Monad.

End Exn.

Notation "x <~ m ;; k" := (Exn.bind m (fun x => k))
  (at level 100, m at next level, right associativity).
Notation "m ;;; k" := (Exn.bind m (fun _ => k))
  (at level 100, right associativity).

(** ** Data model *)

(** A face encoding: the list of numbers of one JSON array, turned into a
    one-dimensional [numpy] array. *)
Definition encoding : Type := list Q.

(** One value of [students.json]; [student_info['name']] raises [KeyError]
    when the key is missing, the two other keys are read with [.get]. *)
Record student_info := {
  stu_name : option string;
  stu_registration_date : option string;
  stu_role : option string
}.

(** One item of [known_metadata]. *)
Record metadata := {
  registration_date : string;
  role : string;
  encoding_index : nat
}.

(** [self.recognition_stats] *)
Record stats := {
  total_attempts : nat;
  successful_recognitions : nat;
  false_positives : nat;
  processing_times : list Q;
  confidence_scores : list Q
}.

(** The attributes of an [AdvancedFaceRecognition] object that the
    calibration, matching and statistics code reads or writes. *)
Record engine := {
  current_model : string;
  face_distance_threshold : Q;
  confidence_threshold : Q;
  quality_threshold : Q;
  min_face_size : nat * nat;
  max_face_size : nat * nat;
  blur_threshold : Q;
  brightness_range : Q * Q;
  recognition_stats : stats;
  known_encodings : list encoding;
  known_names : list string;
  known_rolls : list string;
  known_metadata : list metadata
}.

(** Attribute assignments. *)
Definition set_current_model (m : string) (e : engine) : engine :=
  {| current_model := m;
     face_distance_threshold := face_distance_threshold e;
     confidence_threshold := confidence_threshold e;
     quality_threshold := quality_threshold e;
     min_face_size := min_face_size e;
     max_face_size := max_face_size e;
     blur_threshold := blur_threshold e;
     brightness_range := brightness_range e;
     recognition_stats := recognition_stats e;
     known_encodings := known_encodings e;
     known_names := known_names e;
     known_rolls := known_rolls e;
     known_metadata := known_metadata e |}.

Definition set_face_distance_threshold (t : Q) (e : engine) : engine :=
  {| current_model := current_model e;
     face_distance_threshold := t;
     confidence_threshold := confidence_threshold e;
     quality_threshold := quality_threshold e;
     min_face_size := min_face_size e;
     max_face_size := max_face_size e;
     blur_threshold := blur_threshold e;
     brightness_range := brightness_range e;
     recognition_stats := recognition_stats e;
     known_encodings := known_encodings e;
     known_names := known_names e;
     known_rolls := known_rolls e;
     known_metadata := known_metadata e |}.

Definition set_confidence_threshold (t : Q) (e : engine) : engine :=
  {| current_model := current_model e;
     face_distance_threshold := face_distance_threshold e;
     confidence_threshold := t;
     quality_threshold := quality_threshold e;
     min_face_size := min_face_size e;
     max_face_size := max_face_size e;
     blur_threshold := blur_threshold e;
     brightness_range := brightness_range e;
     recognition_stats := recognition_stats e;
     known_encodings := known_encodings e;
     known_names := known_names e;
     known_rolls := known_rolls e;
     known_metadata := known_metadata e |}.

Definition set_recognition_stats (s : stats) (e : engine) : engine :=
  {| current_model := current_model e;
     face_distance_threshold := face_distance_threshold e;
     confidence_threshold := confidence_threshold e;
     quality_threshold := quality_threshold e;
     min_face_size := min_face_size e;
     max_face_size := max_face_size e;
     blur_threshold := blur_threshold e;
     brightness_range := brightness_range e;
     recognition_stats := s;
     known_encodings := known_encodings e;
     known_names := known_names e;
     known_rolls := known_rolls e;
     known_metadata := known_metadata e |}.

(** The four parallel lists are always assigned or appended to together. *)
Definition set_known (encs : list encoding) (names rolls : list string)
    (metas : list metadata) (e : engine) : engine :=
  {| current_model := current_model e;
     face_distance_threshold := face_distance_threshold e;
     confidence_threshold := confidence_threshold e;
     quality_threshold := quality_threshold e;
     min_face_size := min_face_size e;
     max_face_size := max_face_size e;
     blur_threshold := blur_threshold e;
     brightness_range := brightness_range e;
     recognition_stats := recognition_stats e;
     known_encodings := encs;
     known_names := names;
     known_rolls := rolls;
     known_metadata := metas |}.

Definition clear_known (e : engine) : engine := set_known [] [] [] [] e.

(** The record written by [save_calibration_results]. *)
Record calibration_data := {
  cal_timestamp : string;
  cal_face_distance_threshold : Q;
  cal_confidence_threshold : Q;
  cal_quality_threshold : Q;
  cal_face_detection_model : string;
  cal_encodings_used : nat;
  cal_unique_persons : nat
}.

(** A JSON file on disk: missing, present but not loadable (so that
    [open] or [json.load] raises), or present with its parsed content. *)
Inductive file (A : Type) : Type :=
| Absent
| Unreadable
| Content (a : A).
Arguments Absent {A}.
Arguments Unreadable {A}.
Arguments Content {A} a.

Definition exists_ {A} (f : file A) : bool :=
  match f with Absent => false | _ => true end.

Definition json_load {A} (f : file A) : option A :=
  match f with Content a => Some a | _ => None end.

(** ** Calibration and loading *)

Section Calibration.

(** [face_recognition.face_distance([a], b)[0]]: the Euclidean norm of
    [a - b]; [None] when [numpy] raises because the shapes do not fit. *)
Variable dist : encoding -> encoding -> option Q.

(** [statistics.stdev], called on two or more values only. *)
Variable stdev : list Q -> Q.

(** [face_recognition.face_distance(known, query)]: one distance per
    known encoding, in order. *)
Definition face_distance (known : list encoding) (query : encoding)
  : option (list Q) :=
  mapM (fun k => dist k query) known.

(** [person_encodings[roll].append(enc)] on a [defaultdict(list)], kept
    as an association list in insertion order. *)
Fixpoint group_append (roll : string) (enc : encoding)
    (g : list (string * list encoding)) : list (string * list encoding) :=
  match g with
  | [] => [(roll, [enc])]
  | (r, encs) :: g' =>
      if String.eqb r roll then (r, encs ++ [enc]) :: g'
      else (r, encs) :: group_append roll enc g'
  end.

(** [for i, roll in enumerate(self.known_rolls)], from index [i] on;
    [self.known_encodings[i]] raises [IndexError] out of range. *)
Fixpoint group_by_person (rolls : list string) (i : nat)
    (encs : list encoding) (g : list (string * list encoding))
  : option (list (string * list encoding)) :=
  match rolls with
  | [] => Some g
  | roll :: rolls' =>
      enc ← encs !! i;
      group_by_person rolls' (S i) encs (group_append roll enc g)
  end.

(** The two nested [range] loops over one person's encodings: every
    pair [i < j], in that order. *)
Fixpoint pairwise (encs : list encoding) : option (list Q) :=
  match encs with
  | [] => Some []
  | x :: rest =>
      ds ← mapM (fun y => dist x y) rest;
      ds' ← pairwise rest;
      Some (ds ++ ds')
  end.

Fixpoint intra_class (g : list (string * list encoding))
  : option (list Q) :=
  match g with
  | [] => Some []
  | (_, encs) :: g' =>
      ds ← (if (1 <? length encs)%nat then pairwise encs else Some []);
      ds' ← intra_class g';
      Some (ds ++ ds')
  end.

(** The two inner loops over [[:2]] of each person's encodings. *)
Definition cross (a b : list encoding) : option (list Q) :=
  @concat Q <$> mapM (fun e1 => mapM (fun e2 => dist e1 e2) (take 2 b))
                  (take 2 a).

Fixpoint inter_class (g : list (string * list encoding))
  : option (list Q) :=
  match g with
  | [] => Some []
  | (_, encs) :: g' =>
      ds ← @concat Q <$> mapM (fun p => cross encs (snd p)) g';
      ds' ← inter_class g';
      Some (ds ++ ds')
  end.

(** The part of the [try] block before [if intra_class_distances and
    inter_class_distances]. *)
Definition class_distances (e : engine) : option (list Q * list Q) :=
  g ← group_by_person (known_rolls e) 0 (known_encodings e) [];
  intra ← intra_class g;
  inter ← inter_class g;
  Some (intra, inter).

Definition save_calibration_results (now : string) (e : engine)
  : calibration_data :=
  {| cal_timestamp := now;
     cal_face_distance_threshold := face_distance_threshold e;
     cal_confidence_threshold := confidence_threshold e;
     cal_quality_threshold := quality_threshold e;
     cal_face_detection_model := current_model e;
     cal_encodings_used := length (known_encodings e);
     cal_unique_persons :=
       size (list_to_set (known_rolls e) : gset string) |}.

Definition nonempty {A} (l : list A) : bool :=
  match l with [] => false | _ => true end.

(** [auto_calibrate]: the engine after the call, and the record handed
    to [save_calibration_results] when that line is reached.  The method
    itself returns [None] on every path; a call that does not calibrate
    is one that assigns no threshold and saves no record. *)
Definition auto_calibrate (now : string) (e : engine)
  : engine * option calibration_data :=
  if (length (known_encodings e) <? 5)%nat then (e, None)
  else
    match class_distances e with
    | None => (e, None)
    | Some (intra_class_distances, inter_class_distances) =>
        if nonempty intra_class_distances
           && nonempty inter_class_distances then
          match Py.mean intra_class_distances,
                Py.mean inter_class_distances with
          | Some avg_intra, Some avg_inter =>
              let std_intra :=
                if (1 <? length intra_class_distances)%nat
                then stdev intra_class_distances else 0.1%Q in
              let optimal_threshold := (avg_intra + 2 * std_intra)%Q in
              let e1 :=
                set_face_distance_threshold
                  (Py.max 0.3 (Py.min 0.6 optimal_threshold)) e in
              let e2 :=
                set_confidence_threshold
                  (1.0 - face_distance_threshold e1 - 0.1)%Q e1 in
              (e2, Some (save_calibration_results now e2))
          | _, _ => (e, None)
          end
        else (e, None)
    end.

(** The body of [for i, encoding in enumerate(encodings_list)], from
    index [i] on, with the running [total_encodings].  The four appends
    happen in the source's order; the second one raises when the student
    has no ['name']. *)
Fixpoint append_encodings (roll : string) (student : student_info)
    (i : nat) (encodings_list : list encoding) (total : nat) (e : engine)
  : option (engine * nat) :=
  match encodings_list with
  | [] => Some (e, total)
  | enc :: rest =>
      nm ← stu_name student;
      append_encodings roll student (S i) rest (S total)
        (set_known
           (known_encodings e ++ [enc])
           (known_names e ++ [nm])
           (known_rolls e ++ [roll])
           (known_metadata e ++
              [{| registration_date :=
                    default "unknown" (stu_registration_date student);
                  role := default "student" (stu_role student);
                  encoding_index := i |}])
           e)
  end.

(** [for roll_number, encodings_list in encodings_data.items()]. *)
Fixpoint load_items (encodings_data : list (string * list encoding))
    (students_data : gmap string student_info) (total : nat) (e : engine)
  : option (engine * nat) :=
  match encodings_data with
  | [] => Some (e, total)
  | (roll_number, encodings_list) :: rest =>
      match students_data !! roll_number with
      | Some student =>
          '(e', total') ← append_encodings roll_number student 0
                            encodings_list total e;
          load_items rest students_data total' e'
      | None => load_items rest students_data total e
      end
  end.

(** [load_encodings].  [encodings.json] is an object from roll numbers
    to arrays of encodings, read in key order; [students.json] is an
    object from roll numbers to student records. *)
Definition load_encodings (now : string)
    (encodings_file : file (list (string * list encoding)))
    (students_file : file (gmap string student_info))
    (e : engine) : engine :=
  let e0 := clear_known e in
  if exists_ encodings_file && exists_ students_file then
    match json_load encodings_file, json_load students_file with
    | Some encodings_data, Some students_data =>
        match load_items encodings_data students_data 0 e0 with
        | Some (e1, total_encodings) =>
            if (10 <=? total_encodings)%nat
            then fst (auto_calibrate now e1)
            else e1
        | None => clear_known e0
        end
    | _, _ => clear_known e0
    end
  else e0.

(** The attributes set by [__init__] before it calls [load_encodings]. *)
Definition initial : engine :=
  {| current_model := "hog";
     face_distance_threshold := 0.4;
     confidence_threshold := 0.65;
     quality_threshold := 0.7;
     min_face_size := (50, 50)%nat;
     max_face_size := (500, 500)%nat;
     blur_threshold := 100;
     brightness_range := (50, 200)%Q;
     recognition_stats :=
       {| total_attempts := 0;
          successful_recognitions := 0;
          false_positives := 0;
          processing_times := [];
          confidence_scores := [] |};
     known_encodings := [];
     known_names := [];
     known_rolls := [];
     known_metadata := [] |}.

Definition init (now : string)
    (encodings_file : file (list (string * list encoding)))
    (students_file : file (gmap string student_info)) : engine :=
  load_encodings now encodings_file students_file initial.

End Calibration.

(** ** Quality assessment, matching and statistics *)

(** An image is a [numpy] array of shape (height, width, 3), kept as its
    rows of pixels. *)
Definition pixel : Type := (Z * Z * Z)%type.
Definition image : Type := list (list pixel).

(** [(top, right, bottom, left)] *)
Definition face_location : Type := (Z * Z * Z * Z)%type.

Record quality_metrics := {
  size_score : Q;
  blur_score : Q;
  brightness_score : Q;
  orientation_score : Q
}.

(** The dictionary returned by [assess_image_quality]; the early return
    has no ['metrics'] key. *)
Record quality_info := {
  overall_score : Q;
  metrics : option quality_metrics;
  issues : list string
}.

(** One dictionary of the list returned by [recognize_faces];
    [res_metadata] is [None] for the empty dictionary, and [quality] is
    [None] when the key is not set. *)
Record result := {
  face_id : nat;
  location : face_location;
  recognized : bool;
  name : string;
  roll_number : option string;
  confidence : Q;
  distance : Py.float;
  res_metadata : option metadata;
  quality : option quality_info
}.

(** The keys that [get_performance_stats] adds to its copy of the
    statistics; the four optional ones are set only when the list they
    summarise is not empty. *)
Record performance_stats := {
  perf_stats : stats;
  recognition_rate : Q;
  avg_processing_time : option Q;
  max_processing_time : option Q;
  avg_confidence : option Q;
  min_confidence : option Q
}.

(** [image[top:bottom, left:right]] *)
Definition crop (img : image) (loc : face_location) : image :=
  let '(top, right_, bottom, left_) := loc in
  map (Py.slice left_ right_) (Py.slice top bottom img).

(** [face_img.size]: the number of array elements. *)
Definition size_of (img : image) : nat :=
  (sum_list (map length img) * 3)%nat.

(** [face_img.shape[:2]] of a crop whose size is not zero. *)
Definition shape2 (img : image) : nat * nat :=
  (length img, match img with r :: _ => length r | [] => 0%nat end).

Definition add_attempt (s : stats) : stats :=
  {| total_attempts := S (total_attempts s);
     successful_recognitions := successful_recognitions s;
     false_positives := false_positives s;
     processing_times := processing_times s;
     confidence_scores := confidence_scores s |}.

Definition add_success (c : Q) (s : stats) : stats :=
  {| total_attempts := total_attempts s;
     successful_recognitions := S (successful_recognitions s);
     false_positives := false_positives s;
     processing_times := processing_times s;
     confidence_scores := confidence_scores s ++ [c] |}.

Definition add_processing_time (t : Q) (s : stats) : stats :=
  {| total_attempts := total_attempts s;
     successful_recognitions := successful_recognitions s;
     false_positives := false_positives s;
     processing_times := processing_times s ++ [t];
     confidence_scores := confidence_scores s |}.

(** [max(l)] and [min(l)] of a non-empty list: the first extreme item. *)
Definition list_max (l : list Q) : option Q :=
  match l with
  | [] => None
  | x :: l' => Some (foldl Py.max x l')
  end.

Definition list_min (l : list Q) : option Q :=
  match l with
  | [] => None
  | x :: l' => Some (foldl Py.min x l')
  end.

Section Recognition.

Variable dist : encoding -> encoding -> option Q.

(** [cv2.cvtColor(frame, cv2.COLOR_BGR2RGB)]; [None] when it raises. *)
Variable cvtColor : image -> option image.

(** [face_recognition.face_locations(rgb_frame, model=...)] *)
Variable face_locations : image -> string -> option (list face_location).

(** [face_recognition.face_encodings(rgb_frame, face_locations)] *)
Variable face_encodings :
  image -> list face_location -> option (list encoding).

(** [cv2.Laplacian(gray_face, cv2.CV_64F).var()] and
    [np.mean(gray_face)] of a cropped face. *)
Variable laplacian_var : image -> Q.
Variable mean_gray : image -> Q.

Definition assess_image_quality (e : engine) (img : image)
    (loc : face_location) : quality_info :=
  let face_img := crop img loc in
  if (size_of face_img =? 0)%nat then
    {| overall_score := 0.0;
       metrics := None;
       issues := ["Empty face region"] |}
  else
    let '(face_height, face_width) := shape2 face_img in
    let '(size_score_, issues1) :=
      if (face_width <? fst (min_face_size e))%nat
         || (face_height <? snd (min_face_size e))%nat
      then (0.3%Q, ["Face too small"])
      else if (fst (max_face_size e) <? face_width)%nat
              || (snd (max_face_size e) <? face_height)%nat
      then (0.7%Q, ["Face too large"])
      else (1.0%Q, []) in
    let blur := laplacian_var face_img in
    let blur_score_ := Py.min 1.0 (blur / blur_threshold e)%Q in
    let issues2 :=
      if Py.ltb blur (blur_threshold e * 0.5)%Q
      then issues1 ++ ["Image too blurry"] else issues1 in
    let brightness := mean_gray face_img in
    let '(brightness_score_, issues3) :=
      if Py.ltb brightness (fst (brightness_range e))
      then (0.4%Q, issues2 ++ ["Image too dark"])
      else if Py.ltb (snd (brightness_range e)) brightness
      then (0.6%Q, issues2 ++ ["Image too bright"])
      else (1.0%Q, issues2) in
    let orientation_score_ := 1.0%Q in
    {| overall_score :=
         (size_score_ * 0.3 + blur_score_ * 0.4
          + brightness_score_ * 0.2 + orientation_score_ * 0.1)%Q;
       metrics :=
         Some {| size_score := size_score_;
                 blur_score := blur_score_;
                 brightness_score := brightness_score_;
                 orientation_score := orientation_score_ |};
       issues := issues3 |}.

(** The body of the [for] loop of [recognize_faces] for face number [i].
    The engine is the mutable state: only its statistics change. *)
Definition recognize_face (rgb_frame : image) (return_quality : bool)
    (i : nat) (face_encoding : encoding) (loc : face_location)
  : Exn.M (S := engine) result :=
  fun self =>
  let result0 :=
    {| face_id := i;
       location := loc;
       recognized := false;
       name := "Unknown";
       roll_number := None;
       confidence := 0.0;
       distance := Py.Inf;
       res_metadata := None;
       quality :=
         if return_quality
         then Some (assess_image_quality self rgb_frame loc)
         else None |} in
  if (0 <? length (known_encodings self))%nat then
    (face_distances <~
       Exn.lift (face_distance dist (known_encodings self) face_encoding);;
     best_match_index <~ Exn.lift (Py.argmin face_distances);;
     best_distance <~ Exn.lift (face_distances !! best_match_index);;
     let confidence_ := (1.0 - best_distance)%Q in
     if Py.leb best_distance (face_distance_threshold self)
        && Py.leb (confidence_threshold self) confidence_
     then
       nm <~ Exn.lift (known_names self !! best_match_index);;
       roll <~ Exn.lift (known_rolls self !! best_match_index);;
       md <~ Exn.lift (known_metadata self !! best_match_index);;
       Exn.modify (fun s =>
         set_recognition_stats
           (add_success confidence_ (recognition_stats s)) s);;;
       Exn.ret
         {| face_id := i;
            location := loc;
            recognized := true;
            name := nm;
            roll_number := Some roll;
            confidence := confidence_;
            distance := Py.Fin best_distance;
            res_metadata := Some md;
            quality := quality result0 |}
     else
       (* the log line of this branch reads
          [self.known_names[best_match_index]] *)
       nm <~ Exn.lift (known_names self !! best_match_index);;
       Exn.ret result0) self
  else Exn.ret result0 self.

(** [for i, (face_encoding, face_location) in enumerate(zip(...))] *)
Fixpoint recognize_loop (rgb_frame : image) (return_quality : bool)
    (i : nat) (faces : list (encoding * face_location))
  : Exn.M (S := engine) (list result) :=
  match faces with
  | [] => Exn.ret []
  | (face_encoding, loc) :: rest =>
      r <~ recognize_face rgb_frame return_quality i face_encoding loc;;
      rs <~ recognize_loop rgb_frame return_quality (S i) rest;;
      Exn.ret (r :: rs)
  end.

(** The [try] block of [recognize_faces]; [processing_time] is the
    clock difference measured at its end. *)
Definition recognize_body (frame : image) (return_quality : bool)
    (processing_time : Q) : Exn.M (S := engine) (list result) :=
  rgb_frame <~ Exn.lift (cvtColor frame);;
  fun self =>
  (locations <~ Exn.lift (face_locations rgb_frame (current_model self));;
   match locations with
   | [] => Exn.ret []
   | _ =>
       encodings <~ Exn.lift (face_encodings rgb_frame locations);;
       results <~ recognize_loop rgb_frame return_quality 0
                    (zip encodings locations);;
       Exn.modify (fun s =>
         set_recognition_stats
           (add_processing_time processing_time (recognition_stats s)) s);;;
       Exn.ret results
   end) self.

Definition recognize_faces (frame : image) (return_quality : bool)
    (processing_time : Q) (self : engine) : engine * list result :=
  let self1 :=
    set_recognition_stats (add_attempt (recognition_stats self)) self in
  match recognize_body frame return_quality processing_time self1 with
  | (self2, Some results) => (self2, results)
  | (self2, None) => (self2, [])
  end.

(** [adaptive_model_selection]; [None] when [statistics.mean] raises. *)
Definition adaptive_model_selection (frame_count : Z) (self : engine)
  : option engine :=
  let times := processing_times (recognition_stats self) in
  if (frame_count mod 100 =? 0)%Z && (10 <? length times)%nat then
    avg_time ← Py.mean (Py.last_n 10 times);
    if Py.ltb 0.5 avg_time && String.eqb (current_model self) "cnn"
    then Some (set_current_model "hog" self)
    else if Py.ltb avg_time 0.2 && String.eqb (current_model self) "hog"
    then Some (set_current_model "cnn" self)
    else Some self
  else Some self.

(** [get_performance_stats] *)
Definition get_performance_stats (self : engine) : performance_stats :=
  let st := recognition_stats self in
  {| perf_stats := st;
     recognition_rate :=
       if (0 <? total_attempts st)%nat
       then (inject_Z (Z.of_nat (successful_recognitions st))
             / inject_Z (Z.of_nat (total_attempts st)))%Q
       else 0.0%Q;
     avg_processing_time := Py.mean (processing_times st);
     max_processing_time := list_max (processing_times st);
     avg_confidence := Py.mean (confidence_scores st);
     min_confidence := list_min (confidence_scores st) |}.

End Recognition.

(** ** Registration: image folders and the files on disk *)

(** The content of [model_metadata.json]. *)
Record model_metadata := {
  total_students : nat;
  training_date : string;
  total_encodings : nat;
  model_version : string;
  face_detection_model : string;
  distance_threshold : Q;
  meta_confidence_threshold : Q
}.

(** The three files the registration code reads and writes.  Writing is
    taken to succeed. *)
Record disk := {
  disk_encodings : file (list (string * list encoding));
  disk_students : file (gmap string student_info);
  disk_metadata : option model_metadata
}.

(** [d[k] = v] on a dictionary kept in insertion order: an existing key
    keeps its place, a new key goes last. *)
Fixpoint dict_set {V} (k : string) (v : V) (d : list (string * V))
  : list (string * V) :=
  match d with
  | [] => [(k, v)]
  | (k', v') :: d' =>
      if String.eqb k' k then (k', v) :: d'
      else (k', v') :: dict_set k v d'
  end.

(** [d.get(k)] on the same representation. *)
Fixpoint dict_get {V} (k : string) (d : list (string * V)) : option V :=
  match d with
  | [] => None
  | (k', v') :: d' => if String.eqb k' k then Some v' else dict_get k d'
  end.

(** [save_student_encodings]: the disk afterwards and the boolean
    returned; an encodings file that exists and does not load makes the
    method return [False] without writing. *)
Definition save_student_encodings (student_roll : string)
    (encodings : list encoding) (d : disk) : disk * bool :=
  let loaded :=
    if exists_ (disk_encodings d) then json_load (disk_encodings d)
    else Some [] in
  match loaded with
  | Some all_encodings =>
      ({| disk_encodings :=
            Content (dict_set student_roll encodings all_encodings);
          disk_students := disk_students d;
          disk_metadata := disk_metadata d |}, true)
  | None => (d, false)
  end.

(** [sum(len(encs) for encs in encodings_data.values())] *)
Definition count_encodings (encodings_data : list (string * list encoding))
  : nat :=
  sum_list (map (fun p => length (snd p)) encodings_data).

(** [update_model_metadata]: reads the encodings file only; when that
    file exists and does not load, nothing is written. *)
Definition update_model_metadata (now : string) (self : engine) (d : disk)
  : disk :=
  let counts :=
    match disk_encodings d with
    | Absent => Some (0%nat, 0%nat)
    | Unreadable => None
    | Content encodings_data =>
        Some (length encodings_data, count_encodings encodings_data)
    end in
  match counts with
  | Some (students, encodings) =>
      {| disk_encodings := disk_encodings d;
         disk_students := disk_students d;
         disk_metadata :=
           Some {| total_students := students;
                   training_date := now;
                   total_encodings := encodings;
                   model_version := "2.0";
                   face_detection_model := current_model self;
                   distance_threshold := face_distance_threshold self;
                   meta_confidence_threshold := confidence_threshold self |}
      |}
  | None => d
  end.

(** [str.lower] on the ASCII letters, which is what decides the four
    suffixes below. *)
Definition lower_ascii (c : Ascii.ascii) : Ascii.ascii :=
  let n := Ascii.nat_of_ascii c in
  if (65 <=? n)%nat && (n <=? 90)%nat
  then Ascii.ascii_of_nat (n + 32) else c.

Fixpoint lower (s : string) : string :=
  match s with
  | EmptyString => EmptyString
  | String c s' => String (lower_ascii c) (lower s')
  end.

(** [s.endswith(suffix)] *)
Definition endswith (s suffix : string) : bool :=
  let n := String.length s in
  let m := String.length suffix in
  (m <=? n)%nat && String.eqb (String.substring (n - m) m s) suffix.

Definition supported_formats : list string :=
  [".jpg"; ".jpeg"; ".png"; ".bmp"].

(** [file.lower().endswith(supported_formats)] *)
Definition is_image_file (file_name : string) : bool :=
  existsb (endswith (lower file_name)) supported_formats.

(** The key of [max(face_locations, key=...)]:
    [(loc[2] - loc[0]) * (loc[1] - loc[3])]. *)
Definition area (loc : face_location) : Z :=
  let '(top, right_, bottom, left_) := loc in
  ((bottom - top) * (right_ - left_))%Z.

(** [max(l, key=key)] over [best :: l]: the first item of maximal key. *)
Fixpoint max_by {A} (key : A -> Z) (best : A) (l : list A) : A :=
  match l with
  | [] => best
  | x :: l' =>
      if (key best <? key x)%Z then max_by key x l' else max_by key best l'
  end.

Section Registration.

Variable dist : encoding -> encoding -> option Q.
Variable stdev : list Q -> Q.
Variable cvtColor : image -> option image.
Variable face_locations : image -> string -> option (list face_location).
Variable face_encodings :
  image -> list face_location -> option (list encoding).

(** The body of the loop over the image files, for one file whose
    [cv2.imread] gave [img] ([None] for a file that does not decode):
    the encoding appended, or [None] when the file counts as failed,
    through a [continue] or through the inner [except]. *)
Definition process_image (img : option image) : option encoding :=
  match img with
  | None => None
  | Some image_ =>
      match cvtColor image_ with
      | None => None
      | Some rgb_image =>
          match face_locations rgb_image "hog" with
          | None => None
          | Some [] => None
          | Some (loc :: locs) =>
              let locations :=
                if (1 <? length (loc :: locs))%nat
                then [max_by area loc locs]
                else loc :: locs in
              match face_encodings rgb_image locations with
              | Some (enc :: _) => Some enc
              | _ => None
              end
          end
      end
  end.

(** The loop, with its three accumulators. *)
Fixpoint scan_images (image_files : list (string * option image))
    (encodings : list encoding) (processed_count failed_count : nat)
  : list encoding * nat * nat :=
  match image_files with
  | [] => (encodings, processed_count, failed_count)
  | (_, img) :: rest =>
      match process_image img with
      | Some enc =>
          scan_images rest (encodings ++ [enc]) (S processed_count)
            failed_count
      | None => scan_images rest encodings processed_count (S failed_count)
      end
  end.

(** [process_student_images] without a callback.  [image_folder] is
    [None] when the folder does not exist, and otherwise its listing:
    each file name with what [cv2.imread] returns for it.  The result is
    the engine, the disk and the boolean returned. *)
Definition process_student_images (now : string) (student_roll : string)
    (image_folder : option (list (string * option image)))
    (self : engine) (d : disk) : engine * disk * bool :=
  match image_folder with
  | None => (self, d, false)
  | Some listing =>
      let image_files :=
        List.filter (fun f => is_image_file (fst f)) listing in
      match image_files with
      | [] => (self, d, false)
      | _ =>
          let '(encodings, processed_count, failed_count) :=
            scan_images image_files [] 0 0 in
          (* the summary divides by [processed_count + failed_count] *)
          if (processed_count + failed_count =? 0)%nat
          then (self, d, false)
          else if (processed_count =? 0)%nat then (self, d, false)
          else
            let '(d1, success) :=
              save_student_encodings student_roll encodings d in
            if success then
              let d2 := update_model_metadata now self d1 in
              (load_encodings dist stdev now
                 (disk_encodings d2) (disk_students d2) self,
               d2, true)
            else (self, d1, false)
      end
  end.

End Registration.

(** ** Sample data *)

Module Sample.

(** A distance to run the examples with: the sum of the absolute
    differences of the components.  It is the Euclidean distance whenever
    the two vectors differ in one component only, which is the case
    wherever it is applied below; vectors of different lengths raise. *)
Fixpoint l1 (a b : encoding) : option Q :=
  match a, b with
  | [], [] => Some 0%Q
  | x :: a', y :: b' => d ← l1 a' b'; Some (Qred (Qabs (x - y) + d))
  | _, _ => None
  end.

(** [statistics.stdev] on samples that are all equal. *)
Definition stdev_equal (l : list Q) : Q := 0%Q.

(** [cv2.cvtColor(frame, cv2.COLOR_BGR2RGB)] on a well-formed frame. *)
Definition bgr2rgb (frame : image) : option image :=
  Some (map (map (fun '(b, g, r) => (r, g, b))) frame).

(** A detector that finds nothing, and one that finds two boxes. *)
Definition no_face (img : image) (model : string)
  : option (list face_location) := Some [].

Definition two_faces (img : image) (model : string)
  : option (list face_location) :=
  Some [(0, 2, 2, 0)%Z; (0, 4, 2, 2)%Z].

(** An encoder that maps a box to one number, half its left edge. *)
Definition encode (img : image) (locs : list face_location)
  : option (list encoding) :=
  Some (map (fun loc => [(inject_Z (snd loc) * (1 # 2))%Q]) locs).

Definition sharp (img : image) : Q := 150%Q.
Definition bright (img : image) : Q := 120%Q.

(** A frame of two rows of four black pixels. *)
Definition frame : image := replicate 2 (replicate 4 (0, 0, 0)%Z).

Definition meta0 : metadata :=
  {| registration_date := "unknown"; role := "student";
     encoding_index := 0 |}.

Definition meta1 : metadata :=
  {| registration_date := "unknown"; role := "student";
     encoding_index := 1 |}.

(** Two persons with one encoding each. *)
Definition store2 : engine :=
  set_known [[0%Q]; [1%Q]] ["Ann"; "Bob"] ["r1"; "r2"] [meta0; meta0]
    initial.


(** Two encodings each of two persons and one of a third: five in all. *)
Definition store5 : engine :=
  set_known [[0%Q]; [0.1%Q]; [1%Q]; [1.1%Q]; [2%Q]]
    ["Ann"; "Ann"; "Bob"; "Bob"; "Cy"]
    ["r1"; "r1"; "r2"; "r2"; "r3"]
    [meta0; meta1; meta0; meta1; meta0] initial.

(** An engine on the accurate model with exactly ten recorded processing
    times of 0.6 s. *)
Definition ten_slow : engine :=
  set_current_model "cnn"
    (set_recognition_stats
       {| total_attempts := 100;
          successful_recognitions := 0;
          false_positives := 0;
          processing_times := replicate 10 0.6%Q;
          confidence_scores := [] |}
       initial).

(** The same with eleven. *)
Definition eleven_slow : engine :=
  set_current_model "cnn"
    (set_recognition_stats
       {| total_attempts := 100;
          successful_recognitions := 0;
          false_positives := 0;
          processing_times := replicate 11 0.6%Q;
          confidence_scores := [] |}
       initial).

(** An [encodings.json] with a three-number and a two-number array under
    one roll number, and the [students.json] that knows that roll number. *)
Definition encodings_json : list (string * list encoding) :=
  [("r1", [[1%Q; 2%Q; 3%Q]; [1%Q; 2%Q]])].

Definition students_json : gmap string student_info :=
  {[ "r1" := {| stu_name := Some "Ann";
                stu_registration_date := None;
                stu_role := None |} ]}.

End Sample.

(** ** Notions used to state the properties *)

(** The four parallel lists describe the same number of encodings. *)
Definition aligned (self : engine) : Prop :=
  length (known_names self) = length (known_encodings self) /\
  length (known_rolls self) = length (known_encodings self) /\
  length (known_metadata self) = length (known_encodings self).

(** The number of results that report a recognised face. *)
Definition accepted (rs : list result) : nat :=
  length (filter (fun r => recognized r = true) rs).

(** [clamp(x, lo, hi)] as the specification writes it. *)
Definition clamp (x lo hi : Q) : Q :=
  if Py.ltb x lo then lo else if Py.ltb hi x then hi else x.

(** The arithmetic mean of a list of distances. *)
Definition mean_of (l : list Q) : Q :=
  (Py.sum l / inject_Z (Z.of_nat (length l)))%Q.

(** Entry [i] of the four lists describes one encoding of the files: the
    roll number has a student record, the name and metadata are that
    student's, and the encoding is the one at [encoding_index] in that
    roll number's array. *)
Definition described (encodings_data : list (string * list encoding))
    (students_data : gmap string student_info) (self : engine) (i : nat)
  : Prop :=
  exists enc roll student nm md encs,
    known_encodings self !! i = Some enc /\
    known_rolls self !! i = Some roll /\
    known_names self !! i = Some nm /\
    known_metadata self !! i = Some md /\
    students_data !! roll = Some student /\
    stu_name student = Some nm /\
    registration_date md
      = default "unknown" (stu_registration_date student) /\
    role md = default "student" (stu_role student) /\
    (roll, encs) ∈ encodings_data /\
    encs !! encoding_index md = Some enc.

Definition consistent (encodings_data : list (string * list encoding))
    (students_data : gmap string student_info) (self : engine) : Prop :=
  aligned self /\
  forall i, (i < length (known_encodings self))%nat ->
    described encodings_data students_data self i.

(** The encodings of the roll numbers that have a student record, in file
    order. *)
Definition with_student (encodings_data : list (string * list encoding))
    (students_data : gmap string student_info) : list encoding :=
  concat (map snd
    (filter (fun p => is_Some (students_data !! fst p)) encodings_data)).

(** [self'] is [self] with [k] more successful recognitions and [k] more
    confidence samples, and nothing else changed. *)
Definition grown (k : nat) (self self' : engine) : Prop :=
  exists cs,
    length cs = k /\
    self' = set_recognition_stats
              {| total_attempts := total_attempts (recognition_stats self);
                 successful_recognitions :=
                   (successful_recognitions (recognition_stats self) + k)%nat;
                 false_positives := false_positives (recognition_stats self);
                 processing_times :=
                   processing_times (recognition_stats self);
                 confidence_scores :=
                   confidence_scores (recognition_stats self) ++ cs |}
              self.

(** The engine with its successes advanced by the confidence samples
    [cs]. *)
Definition with_successes (cs : list Q) (self : engine) : engine :=
  set_recognition_stats
    {| total_attempts := total_attempts (recognition_stats self);
       successful_recognitions :=
         (successful_recognitions (recognition_stats self) + length cs)%nat;
       false_positives := false_positives (recognition_stats self);
       processing_times := processing_times (recognition_stats self);
       confidence_scores := confidence_scores (recognition_stats self) ++ cs |}
    self.

(** The confidence samples that a list of results stands for. *)
Definition samples (rs : list result) : list Q :=
  map confidence (filter (fun r => recognized r = true) rs).

(** Two engines hold the same store. *)
Definition same_store (e1 e2 : engine) : Prop :=
  known_encodings e1 = known_encodings e2 /\
  known_names e1 = known_names e2 /\
  known_rolls e1 = known_rolls e2 /\
  known_metadata e1 = known_metadata e2.

(** ** More sample data *)

Module Fixture.

(** The Euclidean distance between one-number encodings; arrays of any
    other shape raise. *)
Definition dist1 (a b : encoding) : option Q :=
  match a, b with
  | [x], [y] => Some (Qred (Qabs (x - y)))
  | _, _ => None
  end.


(** A store holding a two-number encoding among one-number ones. *)
Definition mixed_store : engine :=
  set_known [[0%Q]; [1%Q; 2%Q]] ["Ann"; "Bob"] ["r1"; "r2"]
    [Sample.meta0; Sample.meta0] initial.

(** Six encodings of one person. *)
Definition one_person : engine :=
  set_known [[0%Q]; [0.1%Q]; [0.2%Q]; [0.3%Q]; [0.4%Q]; [0.5%Q]]
    (replicate 6 "Ann") (replicate 6 "r1") (replicate 6 Sample.meta0)
    initial.

(** Five persons with one encoding each. *)
Definition five_persons : engine :=
  set_known [[0%Q]; [1%Q]; [2%Q]; [3%Q]; [4%Q]]
    ["Ann"; "Bob"; "Cy"; "Di"; "Ed"] ["r1"; "r2"; "r3"; "r4"; "r5"]
    (replicate 5 Sample.meta0) initial.

(** A students file whose only record has no name. *)
Definition nameless_json : gmap string student_info :=
  {[ "r1" := {| stu_name := None;
                stu_registration_date := None;
                stu_role := None |} ]}.

(** A detector that finds three boxes, of areas 4, 6 and 2. *)
Definition three_faces (img : image) (model : string)
  : option (list face_location) :=
  Some [(0, 2, 2, 0)%Z; (0, 5, 2, 2)%Z; (0, 7, 1, 5)%Z].

(** A folder with an image that decodes, one that does not, and a text
    file. *)
Definition folder : list (string * option image) :=
  [("a.JPG", Some Sample.frame); ("b.png", None);
   ("notes.txt", Some Sample.frame)].


(** A disk whose encodings file does not load. *)
Definition broken_disk : disk :=
  {| disk_encodings := Unreadable;
     disk_students := Content Sample.students_json;
     disk_metadata := None |}.

(** A disk on which the students file does not know the roll number
    being registered. *)
Definition stranger_disk : disk :=
  {| disk_encodings := Absent;
     disk_students := Content (∅ : gmap string student_info);
     disk_metadata := None |}.

End Fixture.

(** * Properties *)

(** ** The primitives on small inputs *)

Example min_keeps_first_on_tie : Py.min (1 # 2) (2 # 4) = (1 # 2)%Q.
Proof. reflexivity. Qed.

Example max_takes_larger : Py.max 0.3 0.45 = 0.45%Q.
Proof. reflexivity. Qed.

Example argmin_first_of_ties : Py.argmin [3; 1; 2; 1]%Q = Some 1%nat.
Proof. reflexivity. Qed.

Example argmin_empty : Py.argmin [] = None.
Proof. reflexivity. Qed.

Example mean_empty_raises : Py.mean [] = None.
Proof. reflexivity. Qed.

Example slice_inside : Py.slice 1 3 [10; 20; 30; 40]%nat = [20; 30]%nat.
Proof. reflexivity. Qed.

Example slice_negative : Py.slice (-3) (-1) [10; 20; 30; 40]%nat
                         = [20; 30]%nat.
Proof. reflexivity. Qed.

Example slice_past_end : Py.slice 2 9 [10; 20; 30; 40]%nat = [30; 40]%nat.
Proof. reflexivity. Qed.

Example slice_reversed_bounds : Py.slice 3 1 [10; 20; 30; 40]%nat = [].
Proof. reflexivity. Qed.

Example last_n_short : Py.last_n 10 [1; 2; 3]%nat = [1; 2; 3]%nat.
Proof. reflexivity. Qed.

(** ** Comparisons, [min], [max] and [argmin] *)

Lemma ltb_lt (x y : Q) : Py.ltb x y = true <-> (x < y)%Q.
Proof.
  unfold Py.ltb. destruct (Qle_bool y x) eqn:E; simpl.
  - apply Qle_bool_iff in E. split; [discriminate | lra].
  - apply not_true_iff_false in E. rewrite Qle_bool_iff in E.
    split; [intros _; lra | reflexivity].
Qed.

Lemma ltb_ge (x y : Q) : Py.ltb x y = false <-> (y <= x)%Q.
Proof.
  unfold Py.ltb. rewrite negb_false_iff. apply Qle_bool_iff.
Qed.

Lemma leb_le (x y : Q) : Py.leb x y = true <-> (x <= y)%Q.
Proof. apply Qle_bool_iff. Qed.

Lemma leb_gt (x y : Q) : Py.leb x y = false <-> (y < x)%Q.
Proof.
  unfold Py.leb. rewrite <- not_true_iff_false, Qle_bool_iff. lra.
Qed.

Lemma argmin_from_spec (l pre : list Q) (i bi : nat) (b : Q) :
  length pre = i ->
  pre !! bi = Some b ->
  (forall j x, pre !! j = Some x ->
     (b <= x)%Q /\ ((j < bi)%nat -> (b < x)%Q)) ->
  exists d,
    (pre ++ l) !! Py.argmin_from l i bi b = Some d /\
    forall j x, (pre ++ l) !! j = Some x ->
      (d <= x)%Q /\ ((j < Py.argmin_from l i bi b)%nat -> (d < x)%Q).
Proof.
  revert pre i bi b.
  induction l as [|x l IH]; intros pre i bi b Hlen Hbi Hbest; simpl.
  - rewrite app_nil_r. eauto.
  - assert (Hlt : (bi < i)%nat)
      by (subst i; eapply lookup_lt_Some; eassumption).
    replace (pre ++ x :: l) with ((pre ++ [x]) ++ l)
      by (rewrite <- app_assoc; reflexivity).
    destruct (Py.ltb x b) eqn:E.
    + apply ltb_lt in E.
      apply IH.
      * rewrite length_app; simpl; lia.
      * subst i. rewrite lookup_app_r by lia.
        rewrite Nat.sub_diag. reflexivity.
      * intros j y Hj. subst i.
        destruct (decide (j < length pre)%nat) as [Hjl|Hjl].
        -- rewrite lookup_app_l in Hj by assumption.
           destruct (Hbest j y Hj) as [Hle _]. split; intros; lra.
        -- rewrite lookup_app_r in Hj by lia.
           destruct (j - length pre)%nat as [|n] eqn:En; simpl in Hj.
           ++ inversion Hj; subst y. split; [lra | lia].
           ++ destruct n; discriminate.
    + apply ltb_ge in E.
      apply IH.
      * rewrite length_app; simpl; lia.
      * rewrite lookup_app_l by lia. assumption.
      * intros j y Hj. subst i.
        destruct (decide (j < length pre)%nat) as [Hjl|Hjl].
        -- rewrite lookup_app_l in Hj by assumption. eauto.
        -- rewrite lookup_app_r in Hj by lia.
           destruct (j - length pre)%nat as [|n] eqn:En; simpl in Hj.
           ++ inversion Hj; subst y. split; [lra | lia].
           ++ destruct n; discriminate.
Qed.

(** [argmin] returns the first index whose value is minimal. *)
Lemma argmin_spec (l : list Q) :
  l <> [] ->
  exists idx d,
    Py.argmin l = Some idx /\ l !! idx = Some d /\
    forall j x, l !! j = Some x ->
      (d <= x)%Q /\ ((j < idx)%nat -> (d < x)%Q).
Proof.
  destruct l as [|x l]; [congruence|]. intros _.
  destruct (argmin_from_spec l [x] 1 0 x) as (d & Hd & Hmin).
  - reflexivity.
  - reflexivity.
  - intros [|[|j]] y Hj; simpl in Hj; try discriminate.
    inversion Hj; subst. split; [lra | lia].
  - exists (Py.argmin_from l 1 0 x), d. simpl in *. auto.
Qed.

(** ** Matching one face *)

Section MatchingProps.

Variable dist : encoding -> encoding -> option Q.
Variable laplacian_var : image -> Q.
Variable mean_gray : image -> Q.

Lemma face_distance_lookup (known : list encoding) (query : encoding)
    (ds : list Q) :
  face_distance dist known query = Some ds ->
  length ds = length known /\
  forall j k, known !! j = Some k ->
    exists dj, dist k query = Some dj /\ ds !! j = Some dj.
Proof.
  unfold face_distance. intros H. apply mapM_Some in H. split.
  - symmetry. eapply Forall2_length; eassumption.
  - intros j k Hj.
    destruct (Forall2_lookup_l _ _ _ _ _ H Hj) as (dj & Hdj & Hk). eauto.
Qed.

(** C1.  Against a store that is not empty, the matcher takes the
    distance from the query to every stored encoding, picks the first
    index of minimal distance [d], and reports a match exactly when
    [d <= face_distance_threshold] and
    [1 - d >= confidence_threshold].  A match carries the identity stored
    at that index, confidence [1 - d] and distance [d]; otherwise the
    result is the unmatched default, with no identity in it. *)
Theorem recognize_face_decision (self : engine) (rgb_frame : image)
    (return_quality : bool) (i : nat) (query : encoding)
    (loc : face_location) (ds : list Q) :
  known_encodings self <> [] ->
  aligned self ->
  face_distance dist (known_encodings self) query = Some ds ->
  exists idx d nm roll md r self',
    (forall j k, known_encodings self !! j = Some k ->
       exists dj, dist k query = Some dj /\ ds !! j = Some dj /\
                  (d <= dj)%Q /\ ((j < idx)%nat -> (d < dj)%Q)) /\
    ds !! idx = Some d /\
    known_names self !! idx = Some nm /\
    known_rolls self !! idx = Some roll /\
    known_metadata self !! idx = Some md /\
    recognize_face dist laplacian_var mean_gray rgb_frame return_quality
      i query loc self = (self', Some r) /\
    (recognized r = true <->
       (d <= face_distance_threshold self)%Q /\
       (confidence_threshold self <= 1 - d)%Q) /\
    (recognized r = true ->
       name r = nm /\ roll_number r = Some roll /\
       res_metadata r = Some md /\
       confidence r = (1.0 - d)%Q /\ distance r = Py.Fin d) /\
    (recognized r = false ->
       name r = "Unknown" /\ roll_number r = None /\
       res_metadata r = None /\
       confidence r = 0.0%Q /\ distance r = Py.Inf /\ self' = self).
Proof.
  intros Hne (Hn & Hr & Hm) Hds.
  destruct (face_distance_lookup _ _ _ Hds) as [Hlen Hall].
  assert (Hds_ne : ds <> []).
  { intros ->. destruct (known_encodings self); [congruence | discriminate]. }
  destruct (argmin_spec ds Hds_ne) as (idx & d & Harg & Hd & Hmin).
  assert (Hidx : (idx < length (known_encodings self))%nat).
  { rewrite <- Hlen. eapply lookup_lt_Some; eassumption. }
  destruct (lookup_lt_is_Some_2 (known_names self) idx) as [nm Hnm];
    [lia|].
  destruct (lookup_lt_is_Some_2 (known_rolls self) idx) as [roll Hroll];
    [lia|].
  destruct (lookup_lt_is_Some_2 (known_metadata self) idx) as [md Hmd];
    [lia|].
  assert (Hpos : (0 <? length (known_encodings self))%nat = true)
    by (apply Nat.ltb_lt; lia).
  exists idx, d, nm, roll, md.
  unfold recognize_face.
  rewrite Hpos. unfold Exn.bind, Exn.lift, Exn.ret, Exn.modify.
  rewrite Hds, Harg, Hd.
  assert (Hdist : forall j k, known_encodings self !! j = Some k ->
            exists dj, dist k query = Some dj /\ ds !! j = Some dj /\
                       (d <= dj)%Q /\ ((j < idx)%nat -> (d < dj)%Q)).
  { intros j k Hj. destruct (Hall j k Hj) as (dj & Hk & Hj').
    destruct (Hmin j dj Hj'). eauto 6. }
  destruct (Py.leb d (face_distance_threshold self)) eqn:Eg1;
    destruct (Py.leb (confidence_threshold self) (1.0 - d)) eqn:Eg2;
    simpl; rewrite Hnm; try rewrite Hroll, Hmd;
    do 2 eexists; (split_and!; [exact Hdist | done.. | | | ]); simpl;
    try (intros H; first [discriminate H | by repeat split]).
  - apply leb_le in Eg1. apply leb_le in Eg2.
    split; [intros _; split; [assumption | lra] | reflexivity].
  - apply leb_gt in Eg2. split; [discriminate | intros [_ H]; lra].
  - apply leb_gt in Eg1. split; [discriminate | intros [H _]; lra].
  - apply leb_gt in Eg1. split; [discriminate | intros [H _]; lra].
Qed.

(** C4.  Against an empty store every query gets the unmatched default:
    not recognised, no identity, distance [float('inf')]; the engine is
    left as it was. *)
Theorem recognize_face_empty_store (self : engine) (rgb_frame : image)
    (return_quality : bool) (i : nat) (query : encoding)
    (loc : face_location) :
  known_encodings self = [] ->
  exists r,
    recognize_face dist laplacian_var mean_gray rgb_frame return_quality
      i query loc self = (self, Some r) /\
    recognized r = false /\
    distance r = Py.Inf /\
    name r = "Unknown" /\
    roll_number r = None /\
    res_metadata r = None.
Proof.
  intros Hempty. unfold recognize_face. rewrite Hempty. simpl.
  eexists. split; [reflexivity|]. simpl. auto.
Qed.

End MatchingProps.

(** ** Calibration *)

Lemma max_min_clamp (x lo hi : Q) :
  (lo <= hi)%Q ->
  (Py.max lo (Py.min hi x) == clamp x lo hi)%Q /\
  (lo <= Py.max lo (Py.min hi x) <= hi)%Q.
Proof.
  intros Hlh. unfold Py.max, Py.min, clamp.
  destruct (Py.ltb x hi) eqn:E1.
  - apply ltb_lt in E1.
    destruct (Py.ltb lo x) eqn:E2.
    + apply ltb_lt in E2.
      destruct (Py.ltb x lo) eqn:E3; [apply ltb_lt in E3; lra|].
      destruct (Py.ltb hi x) eqn:E4; [apply ltb_lt in E4; lra|].
      split; lra.
    + apply ltb_ge in E2.
      destruct (Py.ltb x lo) eqn:E3; [split; lra|].
      apply ltb_ge in E3.
      destruct (Py.ltb hi x) eqn:E4; [apply ltb_lt in E4; lra|].
      split; lra.
  - apply ltb_ge in E1.
    destruct (Py.ltb lo hi) eqn:E2.
    + apply ltb_lt in E2.
      destruct (Py.ltb x lo) eqn:E3; [apply ltb_lt in E3; lra|].
      destruct (Py.ltb hi x) eqn:E4; split; try lra.
      apply ltb_ge in E4. lra.
    + apply ltb_ge in E2.
      destruct (Py.ltb x lo) eqn:E3; [split; lra|].
      destruct (Py.ltb hi x) eqn:E4; split; try lra.
      apply ltb_ge in E4. lra.
Qed.

Lemma mean_nonempty (l : list Q) :
  l <> [] -> Py.mean l = Some (mean_of l).
Proof. destruct l; [congruence | reflexivity]. Qed.


Section CalibrationProps.

Variable dist : encoding -> encoding -> option Q.
Variable stdev : list Q -> Q.

(** Calibration never touches the store or the statistics. *)
Lemma auto_calibrate_known (now : string) (e : engine) :
  let e' := fst (auto_calibrate dist stdev now e) in
  known_encodings e' = known_encodings e /\
  known_names e' = known_names e /\
  known_rolls e' = known_rolls e /\
  known_metadata e' = known_metadata e /\
  recognition_stats e' = recognition_stats e /\
  current_model e' = current_model e.
Proof.
  unfold auto_calibrate.
  destruct (length (known_encodings e) <? 5)%nat; [by repeat split|].
  destruct (class_distances dist e) as [[intra inter]|]; [|by repeat split].
  destruct (nonempty intra && nonempty inter); [|by repeat split].
  destruct (Py.mean intra), (Py.mean inter); by repeat split.
Qed.



End CalibrationProps.

(** ** Loading the store *)

Section LoadProps.

Variable dist : encoding -> encoding -> option Q.
Variable stdev : list Q -> Q.

Lemma append_encodings_consistent
    (encodings_data : list (string * list encoding))
    (students_data : gmap string student_info)
    (roll : string) (student : student_info) (full : list encoding) :
  students_data !! roll = Some student ->
  (roll, full) ∈ encodings_data ->
  forall (rest : list encoding) (i total : nat) (e e' : engine)
         (total' : nat),
    (forall k enc, rest !! k = Some enc -> full !! (i + k)%nat = Some enc) ->
    consistent encodings_data students_data e ->
    append_encodings roll student i rest total e = Some (e', total') ->
    consistent encodings_data students_data e'.
Proof.
  intros Hstu Hin rest.
  induction rest as [|enc rest IH]; intros i total e e' total' Hrest Hc Happ.
  - simpl in Happ. congruence.
  - simpl in Happ.
    destruct (stu_name student) as [nm|] eqn:Hnm; [|discriminate].
    simpl in Happ.
    eapply IH; [ | | exact Happ].
    + intros k x Hk. replace (S i + k)%nat with (i + S k)%nat by lia.
      apply Hrest. exact Hk.
    + destruct Hc as [(Hn & Hr & Hm) Hdesc].
      split.
      * unfold aligned; simpl. rewrite !length_app; simpl. lia.
      * simpl. intros j Hj. rewrite length_app in Hj; simpl in Hj.
        destruct (decide (j < length (known_encodings e))%nat) as [Hlt|Hge].
        -- destruct (Hdesc j Hlt)
             as (x & r & st & n & md & encs & H1 & H2 & H3 & H4 & Hrest').
           exists x, r, st, n, md, encs. simpl.
           rewrite !lookup_app_l by lia. auto.
        -- assert (j = length (known_encodings e)) as -> by lia.
           eexists enc, roll, student, nm, _, full. simpl.
           split_and!;
             try (apply list_lookup_middle; congruence);
             try reflexivity; try assumption.
           simpl. specialize (Hrest 0%nat enc eq_refl).
           rewrite Nat.add_0_r in Hrest. exact Hrest.
Qed.

Lemma load_items_consistent
    (encodings_data : list (string * list encoding))
    (students_data : gmap string student_info) :
  forall (items : list (string * list encoding)) (total : nat)
         (e e' : engine) (total' : nat),
    (forall p, p ∈ items -> p ∈ encodings_data) ->
    consistent encodings_data students_data e ->
    load_items items students_data total e = Some (e', total') ->
    consistent encodings_data students_data e'.
Proof.
  induction items as [|[roll encs] items IH];
    intros total e e' total' Hsub Hc Hload; simpl in Hload.
  - congruence.
  - assert (Hsub' : forall p, p ∈ items -> p ∈ encodings_data)
      by (intros p Hp; apply Hsub; by apply list_elem_of_further).
    destruct (students_data !! roll) as [student|] eqn:Hstu.
    + destruct (append_encodings roll student 0 encs total e)
        as [[e1 total1]|] eqn:Happ; [|discriminate].
      simpl in Hload.
      eapply IH; [exact Hsub' | | exact Hload].
      eapply append_encodings_consistent;
        [exact Hstu | apply Hsub; by left | | exact Hc | exact Happ].
      intros k enc Hk. exact Hk.
    + eapply IH; eassumption.
Qed.

Lemma consistent_clear
    (encodings_data : list (string * list encoding))
    (students_data : gmap string student_info) (e : engine) :
  consistent encodings_data students_data (clear_known e).
Proof.
  split; [by repeat split|]. simpl. intros i Hi. lia.
Qed.

Lemma consistent_same_lists
    (encodings_data : list (string * list encoding))
    (students_data : gmap string student_info) (e e' : engine) :
  known_encodings e' = known_encodings e ->
  known_names e' = known_names e ->
  known_rolls e' = known_rolls e ->
  known_metadata e' = known_metadata e ->
  consistent encodings_data students_data e ->
  consistent encodings_data students_data e'.
Proof.
  intros H1 H2 H3 H4 [Ha Hd]. unfold consistent, aligned, described.
  rewrite H1, H2, H3, H4. split; assumption.
Qed.

(** Whatever the two files hold, the engine after [load_encodings] is
    consistent with their content, or its store is empty. *)
Lemma load_encodings_cases (now : string)
    (encodings_file : file (list (string * list encoding)))
    (students_file : file (gmap string student_info)) (e : engine) :
  let e' := load_encodings dist stdev now encodings_file students_file e in
  (known_encodings e' = [] /\ known_names e' = [] /\
   known_rolls e' = [] /\ known_metadata e' = []) \/
  (exists encodings_data students_data,
     encodings_file = Content encodings_data /\
     students_file = Content students_data /\
     consistent encodings_data students_data e').
Proof.
  unfold load_encodings.
  destruct encodings_file as [| |encodings_data];
    destruct students_file as [| |students_data];
    cbn [exists_ json_load andb];
    try (left; by repeat split).
  destruct (load_items encodings_data students_data 0 (clear_known e))
    as [[e1 total]|] eqn:Hload; [|left; by repeat split].
  right. exists encodings_data, students_data.
  split; [reflexivity|]. split; [reflexivity|].
  assert (Hc1 : consistent encodings_data students_data e1).
  { eapply load_items_consistent; [ | apply consistent_clear | exact Hload].
    auto. }
  destruct (10 <=? total)%nat; [|exact Hc1].
  destruct (auto_calibrate_known dist stdev now e1)
    as (H1 & H2 & H3 & H4 & _).
  eapply consistent_same_lists; eassumption.
Qed.

(** C10.  After every load the four parallel lists have the same length;
    every entry comes from a roll number that has a record in the
    students file, with the name and metadata of that student and the
    encoding found at its [encoding_index] under that roll number; and a
    roll number without a student record appears nowhere in the store. *)
Theorem load_encodings_parallel (now : string)
    (encodings_file : file (list (string * list encoding)))
    (students_file : file (gmap string student_info)) (e : engine) :
  let e' := load_encodings dist stdev now encodings_file students_file e in
  aligned e' /\
  (forall i, (i < length (known_encodings e'))%nat ->
     exists encodings_data students_data,
       encodings_file = Content encodings_data /\
       students_file = Content students_data /\
       described encodings_data students_data e' i) /\
  (forall students_data roll,
     students_file = Content students_data ->
     students_data !! roll = None ->
     roll ∉ known_rolls e').
Proof.
  intros e'.
  destruct (load_encodings_cases now encodings_file students_file e)
    as [(H1 & H2 & H3 & H4) | (D & S & HD & HS & [Ha Hd])];
    fold e' in H1, H2, H3, H4 || fold e' in Ha, Hd.
  - split_and!.
    + unfold aligned. rewrite H1, H2, H3, H4. by repeat split.
    + rewrite H1. simpl. intros i Hi. lia.
    + intros S roll _ _. rewrite H3. apply not_elem_of_nil.
  - split_and!.
    + exact Ha.
    + intros i Hi. exists D, S. auto.
    + intros S' roll HS' Hnone Hin.
      assert (S' = S) as -> by congruence.
      apply list_elem_of_lookup in Hin as [i Hi].
      assert (Hlt : (i < length (known_encodings e'))%nat).
      { destruct Ha as (_ & Hr & _). rewrite <- Hr.
        eapply lookup_lt_Some; eassumption. }
      destruct (Hd i Hlt)
        as (x & r & st & n & md & encs & _ & Hr & _ & _ & Hst & _).
      congruence.
Qed.

Lemma append_encodings_all (roll : string) (student : student_info)
    (nm : string) :
  stu_name student = Some nm ->
  forall (rest : list encoding) (i total : nat) (e : engine),
  exists e',
    append_encodings roll student i rest total e
      = Some (e', (total + length rest)%nat) /\
    known_encodings e' = known_encodings e ++ rest.
Proof.
  intros Hnm rest.
  induction rest as [|enc rest IH]; intros i total e; simpl.
  - exists e. rewrite Nat.add_0_r, app_nil_r. auto.
  - rewrite Hnm. simpl.
    edestruct IH as (e' & Happ & Hknown). exists e'.
    rewrite Happ, Hknown. simpl.
    rewrite <- app_assoc. simpl.
    split; [do 2 f_equal; lia | reflexivity].
Qed.

Lemma with_student_cons (roll : string) (encs : list encoding)
    (items : list (string * list encoding))
    (students_data : gmap string student_info) :
  with_student ((roll, encs) :: items) students_data
  = match students_data !! roll with
    | Some _ => encs ++ with_student items students_data
    | None => with_student items students_data
    end.
Proof.
  unfold with_student. rewrite filter_cons. simpl.
  destruct (students_data !! roll) as [student|] eqn:E.
  - rewrite decide_True by eauto. reflexivity.
  - rewrite decide_False by (intros [? ?]; discriminate). reflexivity.
Qed.

Lemma with_student_elem (items : list (string * list encoding))
    (students_data : gmap string student_info)
    (roll : string) (encs : list encoding) (enc : encoding) :
  (roll, encs) ∈ items ->
  is_Some (students_data !! roll) ->
  enc ∈ encs ->
  enc ∈ with_student items students_data.
Proof.
  intros Hin [student Hstu] Henc.
  induction items as [|[r es] items IH].
  - by apply elem_of_nil in Hin.
  - rewrite with_student_cons.
    apply elem_of_cons in Hin as [Heq | Hin].
    + inversion Heq; subst r es. rewrite Hstu.
      apply elem_of_app. by left.
    + destruct (students_data !! r); [apply elem_of_app; right|]; auto.
Qed.

Lemma load_items_retains (students_data : gmap string student_info) :
  (forall roll student, students_data !! roll = Some student ->
     is_Some (stu_name student)) ->
  forall (items : list (string * list encoding)) (total : nat) (e : engine),
  exists e' total',
    load_items items students_data total e = Some (e', total') /\
    known_encodings e'
      = known_encodings e ++ with_student items students_data.
Proof.
  intros Hnames items.
  induction items as [|[roll encs] items IH]; intros total e.
  - exists e, total. simpl. unfold with_student. simpl.
    rewrite app_nil_r. auto.
  - simpl. rewrite with_student_cons.
    destruct (students_data !! roll) as [student|] eqn:Hstu.
    + destruct (Hnames roll student Hstu) as [nm Hnm].
      destruct (append_encodings_all roll student nm Hnm encs 0 total e)
        as (e1 & Happ & Hk1).
      rewrite Happ. simpl.
      destruct (IH (total + length encs)%nat e1) as (e' & total' & Hl & Hk).
      exists e', total'. rewrite Hl, Hk, Hk1, <- app_assoc. auto.
    + apply IH.
Qed.

(** C6, as the code has it.  Loading checks no dimension.  When both
    files load and every student record has a name, the store holds, in
    file order, every encoding listed under a roll number that has a
    student record, whatever its length: none is skipped and the load is
    not aborted. *)
Theorem load_encodings_keeps_every_length (now : string)
    (encodings_data : list (string * list encoding))
    (students_data : gmap string student_info) (e : engine) :
  (forall roll student, students_data !! roll = Some student ->
     is_Some (stu_name student)) ->
  let e' := load_encodings dist stdev now
              (Content encodings_data) (Content students_data) e in
  known_encodings e' = with_student encodings_data students_data /\
  forall roll encs enc,
    (roll, encs) ∈ encodings_data ->
    is_Some (students_data !! roll) ->
    enc ∈ encs ->
    enc ∈ known_encodings e'.
Proof.
  intros Hnames e'.
  assert (Hk : known_encodings e'
               = with_student encodings_data students_data).
  { subst e'. unfold load_encodings. cbn [exists_ json_load andb].
    destruct (load_items_retains students_data Hnames encodings_data 0
                (clear_known e)) as (e1 & total & Hload & Hknown).
    rewrite Hload. simpl in Hknown.
    destruct (10 <=? total)%nat; [|exact Hknown].
    destruct (auto_calibrate_known dist stdev now e1) as (H1 & _).
    congruence. }
  split; [exact Hk|].
  intros roll encs enc Hin Hstu Henc. rewrite Hk.
  eapply with_student_elem; eassumption.
Qed.

End LoadProps.

(** ** Quality of an empty crop *)

Lemma slice_same {A} (a : Z) (l : list A) : Py.slice a a l = [].
Proof. unfold Py.slice. rewrite Z.sub_diag. reflexivity. Qed.

Lemma sum_list_zero (l : list nat) :
  Forall (fun n => n = 0%nat) l -> sum_list l = 0%nat.
Proof. induction 1; simpl; lia. Qed.

(** A box of zero height or zero width crops to an array of size 0. *)
Lemma crop_zero_box (img : image) (top right_ bottom left_ : Z) :
  top = bottom \/ left_ = right_ ->
  size_of (crop img (top, right_, bottom, left_)) = 0%nat.
Proof.
  intros [-> | ->]; unfold size_of, crop.
  - rewrite slice_same. reflexivity.
  - rewrite sum_list_zero; [reflexivity|].
    apply Forall_forall. intros n Hn.
    apply list_elem_of_In, in_map_iff in Hn as (row & <- & Hrow).
    apply in_map_iff in Hrow as (r & <- & _).
    rewrite slice_same. reflexivity.
Qed.

Section QualityProps.

Variable laplacian_var : image -> Q.
Variable mean_gray : image -> Q.

(** C8, as the code has it.  For a box of zero height or zero width, and
    for any box whose crop has no elements, the assessment is the early
    return: [overall_score] 0.0, the single issue ["Empty face region"],
    and no metrics. *)
Theorem assess_image_quality_empty (e : engine) (img : image)
    (top right_ bottom left_ : Z) :
  top = bottom \/ left_ = right_ \/
  size_of (crop img (top, right_, bottom, left_)) = 0%nat ->
  assess_image_quality laplacian_var mean_gray e img
    (top, right_, bottom, left_)
  = {| overall_score := 0.0;
       metrics := None;
       issues := ["Empty face region"] |}.
Proof.
  intros H.
  assert (Hsize : size_of (crop img (top, right_, bottom, left_)) = 0%nat).
  { destruct H as [H | [H | H]]; [apply crop_zero_box; auto.. | exact H]. }
  unfold assess_image_quality. rewrite Hsize. reflexivity.
Qed.

End QualityProps.

(** ** Adaptive model selection *)

Lemma last_n_length {A} (n : nat) (l : list A) :
  (n <= length l)%nat -> length (Py.last_n n l) = n.
Proof. intros H. unfold Py.last_n. rewrite length_drop. lia. Qed.

Lemma set_current_model_same (self : engine) :
  set_current_model (current_model self) self = self.
Proof. destruct self; reflexivity. Qed.

Ltac reflect_tests :=
  repeat match goal with
  | H : Py.ltb _ _ = true |- _ => apply ltb_lt in H
  | H : Py.ltb _ _ = false |- _ => apply ltb_ge in H
  | H : Py.leb _ _ = true |- _ => apply leb_le in H
  | H : Py.leb _ _ = false |- _ => apply leb_gt in H
  | H : String.eqb _ _ = true |- _ => apply String.eqb_eq in H
  | H : String.eqb _ _ = false |- _ => apply String.eqb_neq in H
  end.

(** C5, as the code has it.  The selector always returns.  It only ever
    assigns [current_model].  Unless [frame_count] is a multiple of 100
    and more than ten processing times are recorded, the engine is
    unchanged.  At such a checkpoint, with [avg] the mean of the last ten
    processing times: from ["cnn"] with [avg > 0.5] the model becomes
    ["hog"]; from ["hog"] with [avg < 0.2] it becomes ["cnn"]; in every
    other case the engine is unchanged. *)
Theorem adaptive_model_selection_spec (frame_count : Z) (self : engine) :
  let times := processing_times (recognition_stats self) in
  let avg := mean_of (Py.last_n 10 times) in
  exists self',
    adaptive_model_selection frame_count self = Some self' /\
    self' = set_current_model (current_model self') self /\
    ((frame_count mod 100 <> 0)%Z \/ (length times <= 10)%nat ->
     self' = self) /\
    ((frame_count mod 100 = 0)%Z -> (10 < length times)%nat ->
     ((0.5 < avg)%Q -> current_model self = "cnn" ->
      current_model self' = "hog") /\
     ((avg < 0.2)%Q -> current_model self = "hog" ->
      current_model self' = "cnn") /\
     (~ ((0.5 < avg)%Q /\ current_model self = "cnn") ->
      ~ ((avg < 0.2)%Q /\ current_model self = "hog") ->
      self' = self)).
Proof.
  intros times avg. unfold adaptive_model_selection. fold times.
  destruct (frame_count mod 100 =? 0)%Z eqn:Ec.
  - apply Z.eqb_eq in Ec.
    destruct (10 <? length times)%nat eqn:El; simpl.
    + apply Nat.ltb_lt in El.
      rewrite mean_nonempty.
      2:{ intros Hnil. apply (f_equal length) in Hnil.
          rewrite last_n_length in Hnil by lia. discriminate. }
      fold avg. simpl.
      destruct (Py.ltb 0.5 avg) eqn:E1;
        destruct (String.eqb (current_model self) "cnn") eqn:E2;
        destruct (Py.ltb avg 0.2) eqn:E3;
        destruct (String.eqb (current_model self) "hog") eqn:E4;
        simpl; reflect_tests;
        eexists; (split; [reflexivity|]);
        (split; [simpl; try rewrite set_current_model_same;
                 reflexivity|]);
        (split; [intros [?|?]; [congruence | lia]|]);
        intros _ _; split_and!; intros; simpl;
        try reflexivity; try congruence; try lra; tauto.
    + apply Nat.ltb_ge in El.
      exists self. split_and!; try reflexivity.
      * by rewrite set_current_model_same.
      * intros; lia.
  - apply Z.eqb_neq in Ec. simpl.
    exists self. split_and!; try reflexivity.
    + by rewrite set_current_model_same.
    + intros; congruence.
Qed.

(** ** Statistics kept by [recognize_faces] *)

Lemma grown_refl (self : engine) : grown 0 self self.
Proof.
  exists []. split; [reflexivity|].
  destruct self as [? ? ? ? ? ? ? ? [? ? ? ? ?] ? ? ? ?]; simpl.
  unfold set_recognition_stats; simpl.
  rewrite Nat.add_0_r, app_nil_r. reflexivity.
Qed.

Lemma grown_trans (j k : nat) (a b c : engine) :
  grown j a b -> grown k b c -> grown (j + k) a c.
Proof.
  intros (cs1 & Hl1 & ->) (cs2 & Hl2 & ->).
  exists (cs1 ++ cs2). split; [rewrite length_app; lia|].
  unfold set_recognition_stats; simpl.
  rewrite Nat.add_assoc, app_assoc. reflexivity.
Qed.

Lemma grown_success (c : Q) (self : engine) :
  grown 1 self
    (set_recognition_stats (add_success c (recognition_stats self)) self).
Proof.
  exists [c]. split; [reflexivity|].
  unfold set_recognition_stats, add_success; simpl.
  rewrite Nat.add_1_r. reflexivity.
Qed.

Lemma accepted_cons (r : result) (rs : list result) :
  accepted (r :: rs)
  = ((if recognized r then 1 else 0) + accepted rs)%nat.
Proof.
  unfold accepted. rewrite filter_cons.
  destruct (decide (recognized r = true)) as [E|E].
  - rewrite E. reflexivity.
  - apply not_true_is_false in E. rewrite E. reflexivity.
Qed.

Section StatsProps.

Variable dist : encoding -> encoding -> option Q.
Variable cvtColor : image -> option image.
Variable face_locations : image -> string -> option (list face_location).
Variable face_encodings :
  image -> list face_location -> option (list encoding).
Variable laplacian_var : image -> Q.
Variable mean_gray : image -> Q.

(** One face adds one success exactly when its result is a match. *)
Lemma recognize_face_effect (rgb_frame : image) (return_quality : bool)
    (i : nat) (query : encoding) (loc : face_location)
    (self self' : engine) (o : option result) :
  recognize_face dist laplacian_var mean_gray rgb_frame return_quality
    i query loc self = (self', o) ->
  match o with
  | Some r => grown (if recognized r then 1 else 0) self self'
  | None => self' = self
  end.
Proof.
  unfold recognize_face, Exn.bind, Exn.lift, Exn.ret, Exn.modify.
  intros H.
  repeat (case_match; simplify_eq/=);
    auto using grown_refl, grown_success.
Qed.

Lemma recognize_loop_effect (rgb_frame : image) (return_quality : bool) :
  forall (faces : list (encoding * face_location)) (i : nat)
         (self self' : engine) (o : option (list result)),
    recognize_loop dist laplacian_var mean_gray rgb_frame return_quality
      i faces self = (self', o) ->
    exists k, grown k self self' /\
              forall rs, o = Some rs ->
                k = accepted rs /\ length rs = length faces.
Proof.
  induction faces as [|[enc loc] faces IH]; intros i self self' o H.
  - simpl in H. unfold Exn.ret in H. simplify_eq.
    exists 0%nat. split; [apply grown_refl|].
    intros rs Hrs. simplify_eq. auto.
  - simpl in H. unfold Exn.bind at 1 in H.
    destruct (recognize_face dist laplacian_var mean_gray rgb_frame
                return_quality i enc loc self) as [s1 [r|]] eqn:Hface.
    + apply recognize_face_effect in Hface.
      unfold Exn.bind at 1 in H.
      destruct (recognize_loop dist laplacian_var mean_gray rgb_frame
                  return_quality (S i) faces s1) as [s2 [rs|]] eqn:Hloop.
      * apply IH in Hloop as (k & Hk & Hrs).
        destruct (Hrs rs eq_refl) as [-> Hlen].
        unfold Exn.ret in H. simplify_eq.
        eexists. split; [eapply grown_trans; eassumption|].
        intros rs' Hrs'. simplify_eq. rewrite accepted_cons. simpl. auto.
      * apply IH in Hloop as (k & Hk & _). simplify_eq.
        eexists. split; [eapply grown_trans; eassumption|].
        intros rs' Hrs'. discriminate.
    + apply recognize_face_effect in Hface. simplify_eq.
      exists 0%nat. split; [apply grown_refl|]. intros ? ?; discriminate.
Qed.

Ltac no_change H :=
  simpl in H; simplify_eq; simpl; split; [reflexivity|]; exists 0%nat;
  split_and!;
    [ simpl; lia
    | unfold accepted; simpl; lia
    | intros; congruence
    | left; reflexivity ].

(** What one call of [recognize_faces] does to the engine: one more
    attempt; [k] more successes, [k] being the number of matches when
    results are returned; and a processing time only when at least one
    face was located and nothing raised. *)
Lemma recognize_faces_effect (frame : image) (return_quality : bool)
    (processing_time : Q) (self self' : engine) (rs : list result) :
  recognize_faces dist cvtColor face_locations face_encodings
    laplacian_var mean_gray frame return_quality processing_time self
  = (self', rs) ->
  let st := recognition_stats self in
  let st' := recognition_stats self' in
  total_attempts st' = S (total_attempts st) /\
  exists k,
    successful_recognitions st'
      = (successful_recognitions st + k)%nat /\
    (accepted rs <= k)%nat /\
    (rs <> [] ->
     k = accepted rs /\
     processing_times st' = processing_times st ++ [processing_time]) /\
    (processing_times st' = processing_times st \/
     processing_times st' = processing_times st ++ [processing_time]).
Proof.
  unfold recognize_faces, recognize_body.
  unfold Exn.bind at 1. unfold Exn.lift at 1.
  destruct (cvtColor frame) as [rgb|]; [|intros H; no_change H].
  unfold Exn.bind at 1. unfold Exn.lift at 1.
  cbn [current_model set_recognition_stats].
  destruct (face_locations rgb (current_model self)) as [[|loc locs]|];
    [intros H; no_change H | | intros H; no_change H].
  unfold Exn.bind at 1. unfold Exn.lift at 1.
  destruct (face_encodings rgb (loc :: locs)) as [encs|];
    [|intros H; no_change H].
  unfold Exn.bind at 1.
  match goal with
  | |- context [recognize_loop ?a ?b ?c ?d ?e ?f ?g ?h] =>
      destruct (recognize_loop a b c d e f g h) as [s2 [rs0|]] eqn:Hloop
  end.
  - apply recognize_loop_effect in Hloop as (k & (cs & Hcs & ->) & Hrs).
    destruct (Hrs rs0 eq_refl) as [-> Hlen].
    unfold Exn.bind, Exn.modify, Exn.ret. intros H. simplify_eq. simpl.
    split; [reflexivity|]. exists (accepted rs).
    split_and!; auto.
  - apply recognize_loop_effect in Hloop as (k & (cs & Hcs & ->) & _).
    intros H. simplify_eq. simpl.
    split; [reflexivity|]. exists (length cs).
    split_and!; auto; unfold accepted; simpl; try lia; congruence.
Qed.

(** C9.  One call adds exactly one attempt, whatever the number of
    faces, and one success per matched face of the returned results.  So a
    frame with two or more matches adds more successes than attempts, and
    when successes were not behind attempts before the call the
    recognition rate afterwards is above 1.0. *)
Theorem recognize_faces_counts (frame : image) (return_quality : bool)
    (processing_time : Q) (self self' : engine) (rs : list result) :
  recognize_faces dist cvtColor face_locations face_encodings
    laplacian_var mean_gray frame return_quality processing_time self
  = (self', rs) ->
  let st := recognition_stats self in
  let st' := recognition_stats self' in
  total_attempts st' = S (total_attempts st) /\
  (successful_recognitions st + accepted rs
   <= successful_recognitions st')%nat /\
  (rs <> [] ->
   successful_recognitions st'
   = (successful_recognitions st + accepted rs)%nat) /\
  ((2 <= accepted rs)%nat ->
   (total_attempts st' - total_attempts st
    < successful_recognitions st' - successful_recognitions st)%nat /\
   ((total_attempts st <= successful_recognitions st)%nat ->
    (total_attempts st' < successful_recognitions st')%nat /\
    (1 < recognition_rate (get_performance_stats self'))%Q)).
Proof.
  intros H st st'.
  destruct (recognize_faces_effect _ _ _ _ _ _ H)
    as (Hatt & k & Hsucc & Hle & Hne & _).
  fold st st' in Hatt, Hsucc.
  split_and!.
  - exact Hatt.
  - lia.
  - intros Hrs. destruct (Hne Hrs) as [-> _]. exact Hsucc.
  - intros Htwo. split; [lia|]. intros Hbehind.
    assert (Hlt : (total_attempts st' < successful_recognitions st')%nat)
      by lia.
    split; [exact Hlt|].
    unfold get_performance_stats. cbn [recognition_rate]. fold st'.
    assert (Hpos : (0 <? total_attempts st')%nat = true)
      by (apply Nat.ltb_lt; lia).
    rewrite Hpos.
    apply Qlt_shift_div_l.
    + change 0%Q with (inject_Z 0). rewrite <- Zlt_Qlt. lia.
    + rewrite Qmult_1_l, <- Zlt_Qlt. lia.
Qed.

(** C7, where the code departs from it.  On a frame in which the detector
    finds no face, [recognize_faces] counts the attempt and returns at
    once: no processing time is appended. *)
Theorem recognize_faces_no_face_no_time (frame rgb_frame : image)
    (return_quality : bool) (processing_time : Q) (self : engine) :
  cvtColor frame = Some rgb_frame ->
  face_locations rgb_frame (current_model self) = Some [] ->
  let self' :=
    fst (recognize_faces dist cvtColor face_locations face_encodings
           laplacian_var mean_gray frame return_quality processing_time
           self) in
  total_attempts (recognition_stats self')
  = S (total_attempts (recognition_stats self)) /\
  processing_times (recognition_stats self')
  = processing_times (recognition_stats self) /\
  length (processing_times (recognition_stats self'))
  <> S (length (processing_times (recognition_stats self))).
Proof.
  intros Hcvt Hloc. simpl.
  unfold recognize_faces, recognize_body, Exn.bind, Exn.lift.
  rewrite Hcvt. cbn [current_model set_recognition_stats].
  rewrite Hloc. simpl. split_and!; [reflexivity | reflexivity | lia].
Qed.

End StatsProps.

(** The recognition rate of an engine that has made no attempt is 0.0,
    and otherwise the quotient of successes by attempts. *)
Lemma recognition_rate_spec (self : engine) :
  let st := recognition_stats self in
  recognition_rate (get_performance_stats self)
  = if (0 <? total_attempts st)%nat
    then (inject_Z (Z.of_nat (successful_recognitions st))
          / inject_Z (Z.of_nat (total_attempts st)))%Q
    else 0.0%Q.
Proof. reflexivity. Qed.

(** * Examples on the sample data *)

(** ** Matching *)

(** A query at distance 0.1 from the first stored encoding and 0.9 from
    the second, under the default thresholds 0.4 and 0.65, is matched to
    the first. *)
Lemma recognize_face_decision_example :
  exists r self',
    recognize_face Sample.l1 Sample.sharp Sample.bright Sample.frame
      false 0 [0.1%Q] (0, 2, 2, 0)%Z Sample.store2 = (self', Some r) /\
    recognized r = true /\ name r = "Ann" /\ distance r = Py.Fin 0.1.
Proof.
  destruct (recognize_face_decision Sample.l1 Sample.sharp Sample.bright
              Sample.store2 Sample.frame false 0 [0.1%Q] (0, 2, 2, 0)%Z
              [0.1%Q; 0.9%Q])
    as (idx & d & nm & roll & md & r & self' & _ & _ & _ & _ & _
        & Hrec & _).
  - discriminate.
  - vm_compute. auto.
  - vm_compute. reflexivity.
  - exists r, self'. split; [exact Hrec|].
    vm_compute in Hrec. inversion Hrec. vm_compute. auto.
Defined.

(** With no stored encoding the same query is not matched. *)
Lemma recognize_face_empty_store_example :
  exists r,
    recognize_face Sample.l1 Sample.sharp Sample.bright Sample.frame
      false 0 [0.1%Q] (0, 2, 2, 0)%Z initial = (initial, Some r) /\
    recognized r = false /\
    distance r = Py.Inf /\
    name r = "Unknown" /\
    roll_number r = None /\
    res_metadata r = None.
Proof.
  apply (recognize_face_empty_store Sample.l1 Sample.sharp Sample.bright
           initial Sample.frame false 0 [0.1%Q] (0, 2, 2, 0)%Z).
  reflexivity.
Defined.

(** ** Calibration *)




(** ** Adaptive model selection *)

(** C5 as stated fails with exactly ten processing times.  The frame
    count is a multiple of 100, ten samples exist, their mean 0.6 is above
    0.5 and the model is ["cnn"]; the test [len(...) > 10] is false and
    the model stays ["cnn"]. *)
Lemma adaptive_ten_samples_no_switch :
  let times := processing_times (recognition_stats Sample.ten_slow) in
  (100 mod 100 = 0)%Z /\
  (10 <= length times)%nat /\
  (0.5 < mean_of (Py.last_n 10 times))%Q /\
  current_model Sample.ten_slow = "cnn" /\
  adaptive_model_selection 100 Sample.ten_slow = Some Sample.ten_slow /\
  (forall self',
     adaptive_model_selection 100 Sample.ten_slow = Some self' ->
     current_model self' <> "hog").
Proof.
  split; [reflexivity|]. split; [simpl; lia|].
  split; [vm_compute; reflexivity|]. split; [reflexivity|].
  split; [reflexivity|].
  intros self' H. vm_compute in H. inversion H. discriminate.
Qed.

(** With eleven such samples the model does become ["hog"]. *)
Lemma adaptive_model_selection_example :
  exists self',
    adaptive_model_selection 100 Sample.eleven_slow = Some self' /\
    current_model self' = "hog".
Proof.
  destruct (adaptive_model_selection_spec 100 Sample.eleven_slow)
    as (self' & Hsel & _ & _ & Hcheck).
  exists self'. split; [exact Hsel|].
  destruct Hcheck as (Hslow & _ & _).
  - reflexivity.
  - simpl. lia.
  - apply Hslow; [vm_compute|]; reflexivity.
Defined.

(** ** Loading *)

(** C6 as stated fails on a file with a three-number and a two-number
    array under a known roll number: both are in the store after the
    load, so whatever the dimension [D] of the store, an encoding of
    another length has been kept. *)
Lemma load_keeps_mixed_lengths :
  let e :=
    init Sample.l1 Sample.stdev_equal "t"
      (Content Sample.encodings_json) (Content Sample.students_json) in
  known_encodings e = [[1%Q; 2%Q; 3%Q]; [1%Q; 2%Q]] /\
  forall D : nat, exists enc, enc ∈ known_encodings e /\ length enc <> D.
Proof.
  split; [vm_compute; reflexivity|].
  intros D. destruct (decide (D = 3%nat)) as [->|HD].
  - exists [1%Q; 2%Q]. split; [|simpl; lia].
    vm_compute. apply list_elem_of_further, list_elem_of_here.
  - exists [1%Q; 2%Q; 3%Q]. split; [|simpl; lia].
    vm_compute. apply list_elem_of_here.
Qed.

Lemma load_encodings_keeps_every_length_example :
  known_encodings
    (load_encodings Sample.l1 Sample.stdev_equal "t"
       (Content Sample.encodings_json) (Content Sample.students_json)
       initial)
  = with_student Sample.encodings_json Sample.students_json.
Proof.
  apply (load_encodings_keeps_every_length Sample.l1 Sample.stdev_equal
           "t" Sample.encodings_json Sample.students_json initial).
  intros roll student H. unfold Sample.students_json in H.
  apply lookup_singleton_Some in H as [_ <-]. simpl. eauto.
Defined.

(** ** Quality *)

(** C8 as stated fails on the text of the issue.  For a box of zero
    height the list of issues is [["Empty face region"]]: the string
    ["empty region"] is not an item of it, nor a substring of one. *)
Lemma assess_empty_issue_text :
  let q :=
    assess_image_quality Sample.sharp Sample.bright initial Sample.frame
      (1, 3, 1, 0)%Z in
  overall_score q = 0.0%Q /\
  issues q = ["Empty face region"] /\
  ("empty region" ∉ issues q) /\
  Forall (fun s => String.index 0 "empty region" s = None) (issues q).
Proof.
  split; [reflexivity|]. split; [reflexivity|]. split.
  - vm_compute. intros H. apply list_elem_of_In in H.
    destruct H as [H | []]. discriminate.
  - vm_compute. repeat constructor.
Qed.

Lemma assess_image_quality_empty_example :
  assess_image_quality Sample.sharp Sample.bright initial Sample.frame
    (1, 3, 1, 0)%Z
  = {| overall_score := 0.0;
       metrics := None;
       issues := ["Empty face region"] |}.
Proof.
  apply (assess_image_quality_empty Sample.sharp Sample.bright initial
           Sample.frame 1 3 1 0).
  left. reflexivity.
Defined.

(** ** Statistics *)

(** A frame without a face: the attempt is counted, the list of
    processing times stays empty. *)
Lemma recognize_faces_no_face_no_time_example :
  let self' :=
    fst (recognize_faces Sample.l1 Sample.bgr2rgb Sample.no_face
           Sample.encode Sample.sharp Sample.bright Sample.frame true
           0.3 Sample.store2) in
  total_attempts (recognition_stats self') = 1%nat /\
  processing_times (recognition_stats self') = [].
Proof.
  destruct (recognize_faces_no_face_no_time Sample.l1 Sample.bgr2rgb
              Sample.no_face Sample.encode Sample.sharp Sample.bright
              Sample.frame Sample.frame true 0.3 Sample.store2)
    as (Hatt & Htimes & _).
  - reflexivity.
  - reflexivity.
  - split; [exact Hatt | exact Htimes].
Defined.

(** A first frame with two matched faces: one attempt, two successes, a
    recognition rate of 2. *)
Lemma recognize_faces_counts_example :
  let self' :=
    fst (recognize_faces Sample.l1 Sample.bgr2rgb Sample.two_faces
           Sample.encode Sample.sharp Sample.bright Sample.frame true
           0.3 Sample.store2) in
  total_attempts (recognition_stats self') = 1%nat /\
  successful_recognitions (recognition_stats self') = 2%nat /\
  (1 < recognition_rate (get_performance_stats self'))%Q.
Proof.
  pose (out := recognize_faces Sample.l1 Sample.bgr2rgb Sample.two_faces
                 Sample.encode Sample.sharp Sample.bright Sample.frame
                 true 0.3 Sample.store2).
  destruct (recognize_faces_counts Sample.l1 Sample.bgr2rgb
              Sample.two_faces Sample.encode Sample.sharp Sample.bright
              Sample.frame true 0.3 Sample.store2 (fst out) (snd out))
    as (Hatt & _ & Hsucc & Hrate).
  - vm_compute. reflexivity.
  - split; [exact Hatt|]. split.
    + apply Hsucc. vm_compute. discriminate.
    + apply Hrate; [vm_compute; lia | simpl; lia].
Defined.

(** * Further properties of the engine *)

(** ** Quality scores *)

Section QualityRange.

Variable laplacian_var : image -> Q.
Variable mean_gray : image -> Q.

Lemma min_one_range (b : Q) :
  (0 <= b)%Q -> (0 <= Py.min 1.0 b <= 1)%Q /\ (Py.min 1.0 b <= b)%Q.
Proof.
  intros Hb. unfold Py.min.
  destruct (Py.ltb b 1.0) eqn:E; reflect_tests; lra.
Qed.


(** X1.  For a crop that is not empty, with a positive blur threshold and
    a sharpness measure that is not negative (it is a variance), the
    overall score lies between 0.27 and 1. *)
Theorem assess_image_quality_score_range (e : engine) (img : image)
    (loc : face_location) :
  size_of (crop img loc) <> 0%nat ->
  (0 < blur_threshold e)%Q ->
  (0 <= laplacian_var (crop img loc))%Q ->
  (0.27 <= overall_score
             (assess_image_quality laplacian_var mean_gray e img loc)
        <= 1)%Q.
Proof.
  intros Hsize Hthr Hvar. unfold assess_image_quality.
  apply Nat.eqb_neq in Hsize. rewrite Hsize.
  destruct (shape2 (crop img loc)) as [face_height face_width].
  assert (Hb : (0 <= laplacian_var (crop img loc) / blur_threshold e)%Q).
  { apply Qle_shift_div_l; [exact Hthr | lra]. }
  destruct (min_one_range _ Hb) as [Hrange _].
  repeat match goal with
         | |- context [if ?c then _ else _] => destruct c
         end; cbn [overall_score]; lra.
Qed.


End QualityRange.

(** ** One call of [recognize_faces], result by result *)

Section RecognitionTrace.

Variable dist : encoding -> encoding -> option Q.
Variable cvtColor : image -> option image.
Variable face_locations : image -> string -> option (list face_location).
Variable face_encodings :
  image -> list face_location -> option (list encoding).
Variable laplacian_var : image -> Q.
Variable mean_gray : image -> Q.

Lemma with_successes_nil (self : engine) : with_successes [] self = self.
Proof.
  destruct self as [? ? ? ? ? ? ? ? [? ? ? ? ?] ? ? ? ?].
  unfold with_successes, set_recognition_stats; simpl.
  rewrite Nat.add_0_r, app_nil_r. reflexivity.
Qed.

Lemma with_successes_app (cs1 cs2 : list Q) (self : engine) :
  with_successes cs2 (with_successes cs1 self)
  = with_successes (cs1 ++ cs2) self.
Proof.
  unfold with_successes, set_recognition_stats; simpl.
  rewrite length_app, Nat.add_assoc, app_assoc. reflexivity.
Qed.

Lemma samples_cons (r : result) (rs : list result) :
  samples (r :: rs)
  = (if recognized r then [confidence r] else []) ++ samples rs.
Proof.
  unfold samples. rewrite filter_cons.
  destruct (decide (recognized r = true)) as [E|E].
  - rewrite E. reflexivity.
  - apply not_true_is_false in E. rewrite E. reflexivity.
Qed.

Lemma samples_length (rs : list result) : length (samples rs) = accepted rs.
Proof. unfold samples, accepted. apply length_map. Qed.

(** What the loop body returns and does, when it returns. *)
Lemma recognize_face_result (rgb_frame : image) (return_quality : bool)
    (i : nat) (query : encoding) (loc : face_location)
    (self self' : engine) (r : result) :
  recognize_face dist laplacian_var mean_gray rgb_frame return_quality
    i query loc self = (self', Some r) ->
  face_id r = i /\ location r = loc /\
  self' = with_successes (samples [r]) self /\
  (recognized r = true ->
   (confidence_threshold self <= confidence r)%Q /\
   exists d, distance r = Py.Fin d /\
             (d <= face_distance_threshold self)%Q /\
             confidence r = (1.0 - d)%Q) /\
  (recognized r = false ->
   name r = "Unknown" /\ roll_number r = None /\ distance r = Py.Inf).
Proof.
  unfold recognize_face, Exn.bind, Exn.lift, Exn.ret, Exn.modify.
  intros H.
  repeat (case_match; simplify_eq/=);
    rewrite ?samples_cons; simpl; rewrite ?with_successes_nil;
    (split; [reflexivity|]); (split; [reflexivity|]);
    (split;
     [ first [ reflexivity
             | unfold samples, with_successes, add_success; simpl;
               rewrite Nat.add_1_r; reflexivity ]
     | ]);
    (split;
     [ intros Hrec; try discriminate Hrec
     | intros Hrec; try discriminate Hrec; by auto ]);
    repeat match goal with
           | H : _ && _ = true |- _ => apply andb_true_iff in H as [? ?]
           end;
    reflect_tests; eauto 6.
Qed.

(** The loop as a whole: the results come in detection order, numbered
    from [i], and the engine changes by the samples of the recognised
    results only. *)
Lemma recognize_loop_trace (rgb_frame : image) (return_quality : bool) :
  forall (faces : list (encoding * face_location)) (i : nat)
         (self self' : engine) (rs : list result),
    recognize_loop dist laplacian_var mean_gray rgb_frame return_quality
      i faces self = (self', Some rs) ->
    self' = with_successes (samples rs) self /\
    length rs = length faces /\
    Forall (fun r => recognized r = true ->
                     (confidence_threshold self <= confidence r)%Q) rs /\
    forall k r, rs !! k = Some r ->
      face_id r = (i + k)%nat /\ snd <$> faces !! k = Some (location r).
Proof.
  induction faces as [|[enc loc] faces IH]; intros i self self' rs H.
  - simpl in H. unfold Exn.ret in H. simplify_eq.
    split_and!; [by rewrite with_successes_nil | done | constructor |].
    intros k r Hk. by rewrite lookup_nil in Hk.
  - simpl in H. unfold Exn.bind at 1 in H.
    destruct (recognize_face dist laplacian_var mean_gray rgb_frame
                return_quality i enc loc self) as [s1 [r|]] eqn:Hface;
      [|discriminate].
    unfold Exn.bind at 1 in H.
    destruct (recognize_loop dist laplacian_var mean_gray rgb_frame
                return_quality (S i) faces s1) as [s2 [rs1|]] eqn:Hloop;
      [|discriminate].
    unfold Exn.ret in H. simplify_eq.
    apply recognize_face_result in Hface
      as (Hid & Hloc & Hs1 & Hyes & _).
    apply IH in Hloop as (Hs2 & Hlen & Hall & Hnum).
    subst s1. split_and!.
    + rewrite Hs2, with_successes_app.
      rewrite (samples_cons r rs1), (samples_cons r []).
      change (samples []) with (@nil Q). rewrite app_nil_r. reflexivity.
    + simpl. lia.
    + constructor; [intros Hr; apply Hyes; exact Hr | exact Hall].
    + intros [|k] r' Hk; simpl in Hk.
      * simplify_eq. rewrite Nat.add_0_r. simpl. auto.
      * destruct (Hnum k r' Hk) as [Hfid Hl]. simpl.
        split; [lia | exact Hl].
Qed.

(** The two ways a call of [recognize_faces] can go: it returns early or
    through the [except] branch, with no result and no processing time;
    or it runs the loop to its end over the zipped encodings and boxes and
    records the processing time. *)
Lemma recognize_faces_inv (frame : image) (return_quality : bool)
    (processing_time : Q) (self self' : engine) (rs : list result) :
  recognize_faces dist cvtColor face_locations face_encodings
    laplacian_var mean_gray frame return_quality processing_time self
  = (self', rs) ->
  let self1 :=
    set_recognition_stats (add_attempt (recognition_stats self)) self in
  (rs = [] /\ exists k, grown k self1 self') \/
  (exists rgb_frame locs encs s2,
     cvtColor frame = Some rgb_frame /\
     face_locations rgb_frame (current_model self) = Some locs /\
     locs <> [] /\
     face_encodings rgb_frame locs = Some encs /\
     recognize_loop dist laplacian_var mean_gray rgb_frame return_quality
       0 (zip encs locs) self1 = (s2, Some rs) /\
     self' = set_recognition_stats
               (add_processing_time processing_time (recognition_stats s2))
               s2).
Proof.
  unfold recognize_faces, recognize_body.
  unfold Exn.bind at 1. unfold Exn.lift at 1.
  destruct (cvtColor frame) as [rgb|] eqn:Hcvt;
    [|intros H; simplify_eq; left; eauto using grown_refl].
  unfold Exn.bind at 1. unfold Exn.lift at 1.
  cbn [current_model set_recognition_stats].
  destruct (face_locations rgb (current_model self))
    as [[|loc locs]|] eqn:Hloc;
    [ intros H; simpl in H; simplify_eq; left; eauto using grown_refl
    | | intros H; simpl in H; simplify_eq; left; eauto using grown_refl ].
  unfold Exn.bind at 1. unfold Exn.lift at 1.
  destruct (face_encodings rgb (loc :: locs)) as [encs|] eqn:Henc;
    [|intros H; simpl in H; simplify_eq; left; eauto using grown_refl].
  unfold Exn.bind at 1.
  match goal with
  | |- context [recognize_loop ?a ?b ?c ?d ?e ?f ?g ?h] =>
      destruct (recognize_loop a b c d e f g h) as [s2 [rs0|]] eqn:Hloop
  end.
  - unfold Exn.bind, Exn.modify, Exn.ret. intros H. simplify_eq.
    right. exists rgb, (loc :: locs), encs, s2.
    split_and!; try reflexivity; try assumption. discriminate.
  - intros H. simplify_eq. left. split; [reflexivity|].
    apply recognize_loop_effect in Hloop as (k & Hk & _). eauto.
Qed.

(** X3.  When [recognize_faces] returns results, there is one result per
    pair of encoding and box, in detection order: result [k] has
    [face_id] [k] and the [k]-th box as its location. *)
Theorem recognize_faces_results_in_order (frame : image)
    (return_quality : bool) (processing_time : Q) (self self' : engine)
    (rs : list result) :
  recognize_faces dist cvtColor face_locations face_encodings
    laplacian_var mean_gray frame return_quality processing_time self
  = (self', rs) ->
  rs <> [] ->
  exists rgb_frame locs encs,
    cvtColor frame = Some rgb_frame /\
    face_locations rgb_frame (current_model self) = Some locs /\
    face_encodings rgb_frame locs = Some encs /\
    length rs = Nat.min (length encs) (length locs) /\
    forall k r, rs !! k = Some r ->
      face_id r = k /\ locs !! k = Some (location r).
Proof.
  intros H Hne.
  destruct (recognize_faces_inv _ _ _ _ _ _ H)
    as [[Hnil _] | (rgb & locs & encs & s2 & Hcvt & Hloc & _ & Henc
                    & Hloop & _)]; [congruence|].
  apply recognize_loop_trace in Hloop as (_ & Hlen & _ & Hnum).
  exists rgb, locs, encs. split_and!; try assumption.
  - rewrite Hlen. apply length_zip.
  - intros k r Hk. destruct (Hnum k r Hk) as [Hid Hl].
    split; [exact Hid|].
    rewrite lookup_zip_with in Hl.
    destruct (encs !! k) as [enc|]; [|discriminate].
    destruct (locs !! k) as [loc|]; [|discriminate].
    simpl in Hl. congruence.
Qed.

(** X4.  A call of [recognize_faces] changes nothing of the engine but
    its statistics: the stored encodings, names, roll numbers and
    metadata, the thresholds and the detection model are as before, on
    every path. *)
Theorem recognize_faces_only_statistics (frame : image)
    (return_quality : bool) (processing_time : Q) (self : engine) :
  let self' :=
    fst (recognize_faces dist cvtColor face_locations face_encodings
           laplacian_var mean_gray frame return_quality processing_time
           self) in
  self' = set_recognition_stats (recognition_stats self') self.
Proof.
  intros self'.
  destruct (recognize_faces dist cvtColor face_locations face_encodings
              laplacian_var mean_gray frame return_quality processing_time
              self) as [s rs] eqn:H.
  subst self'. simpl.
  destruct (recognize_faces_inv _ _ _ _ _ _ H)
    as [[_ (k & cs & _ & ->)]
       | (rgb & locs & encs & s2 & _ & _ & _ & _ & Hloop & ->)].
  - reflexivity.
  - apply recognize_loop_trace in Hloop as (-> & _). reflexivity.
Qed.

(** X5.  When results are returned, the confidence scores recorded by the
    call are exactly the confidences of its recognised results, in
    detection order, and each is at least the confidence threshold. *)
Theorem recognize_faces_confidence_samples (frame : image)
    (return_quality : bool) (processing_time : Q) (self self' : engine)
    (rs : list result) :
  recognize_faces dist cvtColor face_locations face_encodings
    laplacian_var mean_gray frame return_quality processing_time self
  = (self', rs) ->
  rs <> [] ->
  confidence_scores (recognition_stats self')
  = confidence_scores (recognition_stats self) ++ samples rs /\
  Forall (fun c => (confidence_threshold self <= c)%Q) (samples rs).
Proof.
  intros H Hne.
  destruct (recognize_faces_inv _ _ _ _ _ _ H)
    as [[Hnil _] | (rgb & locs & encs & s2 & _ & _ & _ & _ & Hloop & ->)];
    [congruence|].
  apply recognize_loop_trace in Hloop as (-> & _ & Hall & _).
  split; [reflexivity|].
  simpl in Hall. clear -Hall.
  induction Hall as [|r rs Hr _ IH]; [constructor|].
  rewrite samples_cons. destruct (recognized r); simpl; [|exact IH].
  constructor; [apply Hr; reflexivity | exact IH].
Qed.

(** X6.  On every path, a call adds as many confidence scores as it adds
    successful recognitions; so an engine whose confidence scores number
    its successes keeps that after any call. *)
Theorem recognize_faces_scores_per_success (frame : image)
    (return_quality : bool) (processing_time : Q) (self : engine) :
  let st := recognition_stats self in
  let st' :=
    recognition_stats
      (fst (recognize_faces dist cvtColor face_locations face_encodings
              laplacian_var mean_gray frame return_quality processing_time
              self)) in
  (length (confidence_scores st') + successful_recognitions st
   = length (confidence_scores st) + successful_recognitions st')%nat.
Proof.
  intros st st'.
  destruct (recognize_faces dist cvtColor face_locations face_encodings
              laplacian_var mean_gray frame return_quality processing_time
              self) as [s rs] eqn:H.
  subst st st'. cbn [fst].
  destruct (recognize_faces_inv _ _ _ _ _ _ H)
    as [[_ (k & cs & Hcs & ->)]
       | (rgb & locs & encs & s2 & _ & _ & _ & _ & Hloop & ->)].
  - simpl. rewrite length_app. lia.
  - apply recognize_loop_trace in Hloop as (-> & _). simpl.
    rewrite length_app. lia.
Qed.

(** X7.  One stored encoding that the distance cannot be taken to (an
    array of another shape) disables recognition altogether: on any frame
    with a face the call returns no result, records no success and no
    processing time, and only counts the attempt. *)
Theorem recognize_faces_malformed_store (frame rgb_frame : image)
    (return_quality : bool) (processing_time : Q) (self : engine)
    (bad : encoding) (loc : face_location) (locs : list face_location)
    (enc : encoding) (encs : list encoding) :
  bad ∈ known_encodings self ->
  (forall query, dist bad query = None) ->
  cvtColor frame = Some rgb_frame ->
  face_locations rgb_frame (current_model self) = Some (loc :: locs) ->
  face_encodings rgb_frame (loc :: locs) = Some (enc :: encs) ->
  recognize_faces dist cvtColor face_locations face_encodings
    laplacian_var mean_gray frame return_quality processing_time self
  = (set_recognition_stats (add_attempt (recognition_stats self)) self, []).
Proof.
  intros Hbad Hdist Hcvt Hloc Henc.
  assert (Hfd : face_distance dist (known_encodings self) enc = None).
  { unfold face_distance.
    destruct (mapM (fun k => dist k enc) (known_encodings self))
      as [ds|] eqn:E; [|reflexivity].
    apply mapM_Some in E.
    apply list_elem_of_lookup in Hbad as [j Hj].
    destruct (Forall2_lookup_l _ _ _ _ _ E Hj) as (d & _ & Hd).
    rewrite Hdist in Hd. discriminate. }
  assert (Hpos : (0 <? length (known_encodings self))%nat = true).
  { apply Nat.ltb_lt. apply list_elem_of_lookup in Hbad as [j Hj].
    apply lookup_lt_Some in Hj. lia. }
  unfold recognize_faces, recognize_body, Exn.bind, Exn.lift.
  rewrite Hcvt. cbn [current_model set_recognition_stats].
  rewrite Hloc, Henc. simpl.
  unfold recognize_face, Exn.bind, Exn.lift.
  cbn [known_encodings set_recognition_stats].
  rewrite Hpos, Hfd. reflexivity.
Qed.

End RecognitionTrace.

(** ** More on calibration *)

Section CalibrationMore.

Variable dist : encoding -> encoding -> option Q.
Variable stdev : list Q -> Q.
Variable laplacian_var : image -> Q.
Variable mean_gray : image -> Q.

Lemma class_distances_same_store (e e' : engine) :
  known_rolls e' = known_rolls e ->
  known_encodings e' = known_encodings e ->
  class_distances dist e' = class_distances dist e.
Proof. intros Hr He. unfold class_distances. rewrite Hr, He. reflexivity. Qed.

(** X8.  Calibrating twice in a row gives the engine of the first
    calibration: the thresholds depend on the stored encodings only, which
    calibration does not change. *)
Theorem auto_calibrate_idempotent (now1 now2 : string) (e : engine) :
  fst (auto_calibrate dist stdev now2
         (fst (auto_calibrate dist stdev now1 e)))
  = fst (auto_calibrate dist stdev now1 e).
Proof.
  unfold auto_calibrate at 2.
  destruct (length (known_encodings e) <? 5)%nat eqn:Efew.
  - simpl. unfold auto_calibrate. rewrite Efew. reflexivity.
  - destruct (class_distances dist e) as [[intra inter]|] eqn:Ecd.
    + destruct (nonempty intra && nonempty inter) eqn:Ene.
      * destruct (Py.mean intra) as [avg_intra|] eqn:Emi;
          [destruct (Py.mean inter) as [avg_inter|] eqn:Eme|].
        -- cbn [fst].
           match goal with
           | |- fst (auto_calibrate _ _ _ ?x) = _ => set (e1 := x)
           end.
           unfold auto_calibrate.
           replace (known_encodings e1) with (known_encodings e)
             by reflexivity.
           rewrite Efew.
           rewrite (class_distances_same_store e e1) by reflexivity.
           rewrite Ecd, Ene, Emi, Eme. reflexivity.
        -- cbn [fst]. unfold auto_calibrate.
           rewrite Efew, Ecd, Ene, Emi, Eme. reflexivity.
        -- cbn [fst]. unfold auto_calibrate.
           rewrite Efew, Ecd, Ene, Emi. reflexivity.
      * cbn [fst]. unfold auto_calibrate.
        rewrite Efew, Ecd, Ene. reflexivity.
    + cbn [fst]. unfold auto_calibrate. rewrite Efew, Ecd. reflexivity.
Qed.

(** What a calibration that saved a record has done. *)
Lemma auto_calibrate_saved (now : string) (e : engine) :
  is_Some (snd (auto_calibrate dist stdev now e)) ->
  let e' := fst (auto_calibrate dist stdev now e) in
  (5 <= length (known_encodings e))%nat /\
  confidence_threshold e' = (1.0 - face_distance_threshold e' - 0.1)%Q /\
  (0.3 <= face_distance_threshold e' <= 0.6)%Q.
Proof.
  unfold auto_calibrate.
  destruct (length (known_encodings e) <? 5)%nat eqn:Efew;
    [intros [? H]; discriminate H|].
  apply Nat.ltb_ge in Efew.
  destruct (class_distances dist e) as [[intra inter]|];
    [|intros [? H]; discriminate H].
  destruct (nonempty intra && nonempty inter);
    [|intros [? H]; discriminate H].
  destruct (Py.mean intra) as [avg_intra|];
    [destruct (Py.mean inter) as [avg_inter|]|];
    try (intros [? H]; discriminate H).
  intros _. cbn [fst confidence_threshold face_distance_threshold
                 set_confidence_threshold set_face_distance_threshold].
  split_and!; [exact Efew | reflexivity | | ];
    match goal with
    | |- context [Py.max 0.3 (Py.min 0.6 ?x)] =>
        destruct (max_min_clamp x 0.3 0.6) as [_ Hb]; [lra | apply Hb]
    end.
Qed.

(** The loop body on a store that is not empty, once the index of the
    best match and what is stored there are known. *)
Lemma recognize_face_run (self : engine) (rgb_frame : image)
    (return_quality : bool) (i : nat) (query : encoding)
    (loc : face_location) (ds : list Q) (idx : nat) (d : Q)
    (nm roll : string) (md : metadata) :
  known_encodings self <> [] ->
  face_distance dist (known_encodings self) query = Some ds ->
  Py.argmin ds = Some idx ->
  ds !! idx = Some d ->
  known_names self !! idx = Some nm ->
  known_rolls self !! idx = Some roll ->
  known_metadata self !! idx = Some md ->
  exists r self',
    recognize_face dist laplacian_var mean_gray rgb_frame return_quality
      i query loc self = (self', Some r) /\
    recognized r
    = Py.leb d (face_distance_threshold self)
      && Py.leb (confidence_threshold self) (1.0 - d).
Proof.
  intros Hne Hds Harg Hd Hnm Hroll Hmd.
  assert (Hpos : (0 <? length (known_encodings self))%nat = true).
  { apply Nat.ltb_lt. destruct (known_encodings self);
      [congruence | simpl; lia]. }
  unfold recognize_face. rewrite Hpos.
  unfold Exn.bind, Exn.lift, Exn.ret, Exn.modify.
  rewrite Hds, Harg, Hd.
  destruct (Py.leb d (face_distance_threshold self)
            && Py.leb (confidence_threshold self) (1.0 - d));
    rewrite Hnm; try rewrite Hroll, Hmd; eauto.
Qed.

(** X9.  After a calibration that saved a record, the confidence gate is
    implied by the distance gate: a face is recognised exactly when the
    distance of its best match is at most [face_distance_threshold]. *)
Theorem calibrated_gate_is_distance (now : string) (e : engine)
    (rgb_frame : image) (return_quality : bool) (i : nat)
    (query : encoding) (loc : face_location) (ds : list Q) :
  is_Some (snd (auto_calibrate dist stdev now e)) ->
  aligned e ->
  face_distance dist (known_encodings e) query = Some ds ->
  let e' := fst (auto_calibrate dist stdev now e) in
  exists idx d r self',
    Py.argmin ds = Some idx /\
    ds !! idx = Some d /\
    recognize_face dist laplacian_var mean_gray rgb_frame return_quality
      i query loc e' = (self', Some r) /\
    (recognized r = true <-> (d <= face_distance_threshold e')%Q).
Proof.
  intros Hsaved (Hn & Hr & Hm) Hds e'.
  destruct (auto_calibrate_saved now e Hsaved) as (Hfive & Hconf & _).
  destruct (auto_calibrate_known dist stdev now e)
    as (Hke & Hkn & Hkr & Hkm & _).
  fold e' in Hconf, Hke, Hkn, Hkr, Hkm.
  destruct (face_distance_lookup dist _ _ _ Hds) as [Hlen _].
  assert (Hds_ne : ds <> []).
  { intros ->. simpl in Hlen. lia. }
  destruct (argmin_spec ds Hds_ne) as (idx & d & Harg & Hd & _).
  assert (Hidx : (idx < length (known_encodings e))%nat).
  { rewrite <- Hlen. eapply lookup_lt_Some; eassumption. }
  destruct (lookup_lt_is_Some_2 (known_names e) idx) as [nm Hnm]; [lia|].
  destruct (lookup_lt_is_Some_2 (known_rolls e) idx) as [roll Hroll]; [lia|].
  destruct (lookup_lt_is_Some_2 (known_metadata e) idx) as [md Hmd]; [lia|].
  destruct (recognize_face_run e' rgb_frame return_quality i query loc
              ds idx d nm roll md) as (r & self' & Hrun & Hrec);
    try congruence.
  { rewrite Hke. intros Hnil. rewrite Hnil in Hfive. simpl in Hfive. lia. }
  exists idx, d, r, self'. split_and!; try assumption.
  rewrite Hrec, andb_true_iff, !leb_le, Hconf. split.
  - intros [H _]. exact H.
  - intros H. split; [exact H | lra].
Qed.

Lemma group_by_person_one (roll : string) :
  forall (rolls : list string) (i : nat) (encs : list encoding)
         (g g' : list (string * list encoding)),
    Forall (fun r => r = roll) rolls ->
    (g = [] \/ exists es, g = [(roll, es)]) ->
    group_by_person rolls i encs g = Some g' ->
    g' = [] \/ exists es, g' = [(roll, es)].
Proof.
  induction rolls as [|r rolls IH]; intros i encs g g' Hall Hg H.
  - simpl in H. simplify_eq. exact Hg.
  - apply Forall_cons in Hall as [-> Hall]. simpl in H.
    destruct (encs !! i) as [enc|]; [|discriminate]. simpl in H.
    eapply IH; [exact Hall | | exact H].
    right. destruct Hg as [-> | [es ->]]; simpl.
    + eauto.
    + rewrite String.eqb_refl. eauto.
Qed.

Lemma inter_class_one (roll : string) (es : list encoding) :
  inter_class dist [(roll, es)] = Some [].
Proof. reflexivity. Qed.

(** X10.  A store in which every encoding belongs to the same person is
    never calibrated: whatever the number of encodings, the engine is
    returned unchanged and no record is saved. *)
Theorem auto_calibrate_one_person (now : string) (e : engine)
    (roll : string) :
  Forall (fun r => r = roll) (known_rolls e) ->
  auto_calibrate dist stdev now e = (e, None).
Proof.
  intros Hall. unfold auto_calibrate.
  destruct (length (known_encodings e) <? 5)%nat; [reflexivity|].
  unfold class_distances.
  destruct (group_by_person (known_rolls e) 0 (known_encodings e) [])
    as [g|] eqn:Hg; [|reflexivity].
  simpl.
  destruct (group_by_person_one roll _ _ _ _ _ Hall (or_introl eq_refl) Hg)
    as [-> | [es ->]].
  - reflexivity.
  - destruct (intra_class dist [(roll, es)]) as [intra|]; [|reflexivity].
    simpl. rewrite andb_false_r. reflexivity.
Qed.

Lemma group_append_fresh (roll : string) (enc : encoding)
    (g : list (string * list encoding)) :
  roll ∉ map fst g ->
  group_append roll enc g = g ++ [(roll, [enc])].
Proof.
  induction g as [|[r es] g IH]; intros Hfresh; simpl.
  - reflexivity.
  - simpl in Hfresh. apply not_elem_of_cons in Hfresh as [Hne Hfresh].
    destruct (String.eqb_spec r roll) as [->|_];
      [destruct Hne; reflexivity|].
    rewrite IH by exact Hfresh. reflexivity.
Qed.

Lemma group_by_person_distinct :
  forall (rolls : list string) (i : nat) (encs : list encoding)
         (g g' : list (string * list encoding)),
    NoDup (map fst g ++ rolls) ->
    Forall (fun p => length (snd p) = 1%nat) g ->
    group_by_person rolls i encs g = Some g' ->
    Forall (fun p => length (snd p) = 1%nat) g'.
Proof.
  induction rolls as [|r rolls IH]; intros i encs g g' Hnd Hg H.
  - simpl in H. congruence.
  - simpl in H.
    destruct (encs !! i) as [enc|]; [|discriminate]. simpl in H.
    assert (Hfresh : r ∉ map fst g).
    { apply NoDup_app in Hnd as (_ & Hdisj & _).
      intros Hin. apply (Hdisj r Hin). left. }
    rewrite group_append_fresh in H by exact Hfresh.
    eapply IH; [ | | exact H].
    + rewrite map_app. simpl. rewrite <- app_assoc. exact Hnd.
    + apply Forall_app. split; [exact Hg|]. repeat constructor.
Qed.

Lemma intra_class_singletons (g : list (string * list encoding)) :
  Forall (fun p => length (snd p) = 1%nat) g ->
  intra_class dist g = Some [].
Proof.
  induction 1 as [|[r es] g Hlen _ IH]; [reflexivity|].
  simpl in *. rewrite Hlen. simpl. rewrite IH. reflexivity.
Qed.

(** X11.  A store with one encoding per person (no roll number twice) is
    never calibrated either: there is no intra-class distance. *)
Theorem auto_calibrate_one_encoding_each (now : string) (e : engine) :
  NoDup (known_rolls e) ->
  auto_calibrate dist stdev now e = (e, None).
Proof.
  intros Hnd. unfold auto_calibrate.
  destruct (length (known_encodings e) <? 5)%nat; [reflexivity|].
  unfold class_distances.
  destruct (group_by_person (known_rolls e) 0 (known_encodings e) [])
    as [g|] eqn:Hg; [|reflexivity].
  simpl.
  rewrite intra_class_singletons.
  - simpl. destruct (inter_class dist g); reflexivity.
  - eapply group_by_person_distinct; [ | constructor | exact Hg].
    exact Hnd.
Qed.

End CalibrationMore.

(** ** More on loading *)

Section LoadMore.

Variable dist : encoding -> encoding -> option Q.
Variable stdev : list Q -> Q.

Lemma append_encodings_same_store (roll : string) (student : student_info) :
  forall (rest : list encoding) (i total : nat) (e1 e2 : engine),
    same_store e1 e2 ->
    match append_encodings roll student i rest total e1,
          append_encodings roll student i rest total e2 with
    | Some (a, t1), Some (b, t2) => same_store a b /\ t1 = t2
    | None, None => True
    | _, _ => False
    end.
Proof.
  induction rest as [|enc rest IH]; intros i total e1 e2 Hs; simpl.
  - auto.
  - destruct (stu_name student) as [nm|]; simpl; [|exact I].
    apply IH. destruct Hs as (H1 & H2 & H3 & H4).
    unfold same_store; simpl. rewrite H1, H2, H3, H4. auto.
Qed.

Lemma load_items_same_store (students_data : gmap string student_info) :
  forall (items : list (string * list encoding)) (total : nat)
         (e1 e2 : engine),
    same_store e1 e2 ->
    match load_items items students_data total e1,
          load_items items students_data total e2 with
    | Some (a, t1), Some (b, t2) => same_store a b /\ t1 = t2
    | None, None => True
    | _, _ => False
    end.
Proof.
  induction items as [|[roll encs] items IH]; intros total e1 e2 Hs; simpl.
  - auto.
  - destruct (students_data !! roll) as [student|]; [|apply IH; exact Hs].
    pose proof (append_encodings_same_store roll student encs 0 total
                  e1 e2 Hs) as Happ.
    destruct (append_encodings roll student 0 encs total e1)
      as [[a t1]|];
      destruct (append_encodings roll student 0 encs total e2)
        as [[b t2]|]; simpl; try tauto.
    destruct Happ as [Hab <-]. apply IH. exact Hab.
Qed.

(** X12.  Loading replaces the store: the four lists after a load are
    the same whatever engine the load started from, so loading the same
    files again leaves the store as the first load made it. *)
Theorem load_encodings_replaces_store (now1 now2 : string)
    (encodings_file : file (list (string * list encoding)))
    (students_file : file (gmap string student_info)) (e1 e2 : engine) :
  same_store
    (load_encodings dist stdev now1 encodings_file students_file e1)
    (load_encodings dist stdev now2 encodings_file students_file e2).
Proof.
  unfold load_encodings.
  destruct encodings_file as [| |encodings_data];
    destruct students_file as [| |students_data];
    cbn [exists_ json_load andb]; try (by repeat split).
  pose proof (load_items_same_store students_data encodings_data 0
                (clear_known e1) (clear_known e2)) as Hload.
  destruct (load_items encodings_data students_data 0 (clear_known e1))
    as [[a t1]|];
    destruct (load_items encodings_data students_data 0 (clear_known e2))
      as [[b t2]|];
    try (exfalso; apply Hload; by repeat split);
    [|by repeat split].
  destruct Hload as [(H1 & H2 & H3 & H4) <-]; [by repeat split|].
  destruct (auto_calibrate_known dist stdev now1 a)
    as (A1 & A2 & A3 & A4 & _).
  destruct (auto_calibrate_known dist stdev now2 b)
    as (B1 & B2 & B3 & B4 & _).
  destruct (10 <=? t1)%nat; unfold same_store; split_and!; congruence.
Qed.

Lemma append_encodings_no_name (roll : string) (student : student_info)
    (enc : encoding) (rest : list encoding) (i total : nat) (e : engine) :
  stu_name student = None ->
  append_encodings roll student i (enc :: rest) total e = None.
Proof. intros H. simpl. rewrite H. reflexivity. Qed.

Lemma load_items_no_name (students_data : gmap string student_info)
    (roll : string) (encs : list encoding) (student : student_info) :
  encs <> [] ->
  students_data !! roll = Some student ->
  stu_name student = None ->
  forall (items : list (string * list encoding)) (total : nat) (e : engine),
    (roll, encs) ∈ items ->
    load_items items students_data total e = None.
Proof.
  intros Hne Hstu Hname.
  induction items as [|[r es] items IH]; intros total e Hin.
  - by apply elem_of_nil in Hin.
  - simpl. apply elem_of_cons in Hin as [Heq | Hin].
    + inversion Heq; subst r es. rewrite Hstu.
      destruct encs as [|enc rest]; [congruence|].
      rewrite append_encodings_no_name by exact Hname. reflexivity.
    + destruct (students_data !! r) as [st|]; [|apply IH; exact Hin].
      destruct (append_encodings r st 0 es total e) as [[e1 t1]|];
        simpl; [apply IH; exact Hin | reflexivity].
Qed.

(** X13.  One student record without a name empties the store: when a
    roll number that lists at least one encoding has a student record
    with no ['name'], the load ends in its [except] branch and leaves all
    four lists empty, whatever else the files hold. *)
Theorem load_encodings_missing_name (now : string)
    (encodings_data : list (string * list encoding))
    (students_data : gmap string student_info) (e : engine)
    (roll : string) (encs : list encoding) (student : student_info) :
  (roll, encs) ∈ encodings_data ->
  encs <> [] ->
  students_data !! roll = Some student ->
  stu_name student = None ->
  load_encodings dist stdev now
    (Content encodings_data) (Content students_data) e
  = clear_known e.
Proof.
  intros Hin Hne Hstu Hname. unfold load_encodings.
  cbn [exists_ json_load andb].
  rewrite (load_items_no_name students_data roll encs student Hne Hstu
             Hname encodings_data 0 (clear_known e) Hin).
  reflexivity.
Qed.

Lemma append_encodings_fields (roll : string) (student : student_info) :
  forall (rest : list encoding) (i total : nat) (e e' : engine)
         (total' : nat),
    append_encodings roll student i rest total e = Some (e', total') ->
    e' = set_known (known_encodings e') (known_names e') (known_rolls e')
           (known_metadata e') e /\
    (total' + length (known_encodings e)
     = total + length (known_encodings e'))%nat.
Proof.
  induction rest as [|enc rest IH]; intros i total e e' total' H;
    simpl in H.
  - simplify_eq. split; [by destruct e'|lia].
  - destruct (stu_name student) as [nm|]; [|discriminate]. simpl in H.
    apply IH in H as [Heq Htot]. split.
    + rewrite Heq at 1. reflexivity.
    + simpl in Htot. rewrite length_app in Htot. simpl in Htot. lia.
Qed.

Lemma load_items_fields (students_data : gmap string student_info) :
  forall (items : list (string * list encoding)) (total : nat)
         (e e' : engine) (total' : nat),
    load_items items students_data total e = Some (e', total') ->
    e' = set_known (known_encodings e') (known_names e') (known_rolls e')
           (known_metadata e') e /\
    (total' + length (known_encodings e)
     = total + length (known_encodings e'))%nat.
Proof.
  induction items as [|[roll encs] items IH]; intros total e e' total' H;
    simpl in H.
  - simplify_eq. split; [by destruct e'|lia].
  - destruct (students_data !! roll) as [student|]; [|by apply IH].
    destruct (append_encodings roll student 0 encs total e)
      as [[e1 t1]|] eqn:Happ; [|discriminate]. simpl in H.
    apply append_encodings_fields in Happ as [Heq1 Htot1].
    apply IH in H as [Heq Htot]. split.
    + rewrite Heq at 1. rewrite Heq1. reflexivity.
    + lia.
Qed.

(** X14.  A load never touches the statistics, the detection model or the
    quality threshold, and it leaves both matching thresholds as they
    were whenever fewer than ten encodings end up in the store:
    calibration on load starts at ten. *)
Theorem load_encodings_keeps_settings (now : string)
    (encodings_file : file (list (string * list encoding)))
    (students_file : file (gmap string student_info)) (e : engine) :
  let e' := load_encodings dist stdev now encodings_file students_file e in
  recognition_stats e' = recognition_stats e /\
  current_model e' = current_model e /\
  quality_threshold e' = quality_threshold e /\
  ((length (known_encodings e') < 10)%nat ->
   face_distance_threshold e' = face_distance_threshold e /\
   confidence_threshold e' = confidence_threshold e).
Proof.
  unfold load_encodings.
  destruct encodings_file as [| |encodings_data];
    destruct students_file as [| |students_data];
    cbn [exists_ json_load andb]; try (by repeat split).
  destruct (load_items encodings_data students_data 0 (clear_known e))
    as [[e1 total]|] eqn:Hload; [|by repeat split].
  apply load_items_fields in Hload as [Heq Htot].
  simpl in Htot.
  destruct (10 <=? total)%nat eqn:Eten.
  - apply Nat.leb_le in Eten.
    destruct (auto_calibrate_known dist stdev now e1)
      as (A1 & _ & _ & _ & A5 & A6).
    assert (Hq : quality_threshold (fst (auto_calibrate dist stdev now e1))
                 = quality_threshold e1).
    { unfold auto_calibrate.
      repeat (case_match; try reflexivity). }
    rewrite A5, A6, Hq, A1, Heq. simpl.
    split_and!; try reflexivity. intros Hlt. lia.
  - rewrite Heq. simpl. by repeat split.
Qed.

End LoadMore.

(** ** Derived statistics and model selection *)

Lemma foldl_max_spec (l : list Q) :
  forall x,
    (foldl Py.max x l = x \/ foldl Py.max x l ∈ l) /\
    (x <= foldl Py.max x l)%Q /\
    (forall t, t ∈ l -> (t <= foldl Py.max x l)%Q).
Proof.
  induction l as [|y l IH]; intros x; cbn [foldl].
  - split_and!; [by left | lra |]. intros t Ht. by apply elem_of_nil in Ht.
  - destruct (IH (Py.max x y)) as (Hmem & Hge & Hall).
    assert (Hxy : (x <= Py.max x y)%Q /\ (y <= Py.max x y)%Q /\
                  (Py.max x y = x \/ Py.max x y = y)).
    { unfold Py.max. destruct (Py.ltb x y) eqn:E; reflect_tests;
        split_and!; auto; lra. }
    destruct Hxy as (Hx & Hy & Hsel).
    split_and!.
    + destruct Hmem as [Hm | Hm].
      * rewrite Hm. destruct Hsel as [-> | ->]; [by left|].
        right. apply list_elem_of_here.
      * right. by apply list_elem_of_further.
    + eapply Qle_trans; eassumption.
    + intros t Ht. apply elem_of_cons in Ht as [-> | Ht]; [|auto].
      eapply Qle_trans; eassumption.
Qed.

Lemma foldl_min_spec (l : list Q) :
  forall x,
    (foldl Py.min x l = x \/ foldl Py.min x l ∈ l) /\
    (foldl Py.min x l <= x)%Q /\
    (forall t, t ∈ l -> (foldl Py.min x l <= t)%Q).
Proof.
  induction l as [|y l IH]; intros x; cbn [foldl].
  - split_and!; [by left | lra |]. intros t Ht. by apply elem_of_nil in Ht.
  - destruct (IH (Py.min x y)) as (Hmem & Hge & Hall).
    assert (Hxy : (Py.min x y <= x)%Q /\ (Py.min x y <= y)%Q /\
                  (Py.min x y = x \/ Py.min x y = y)).
    { unfold Py.min. destruct (Py.ltb y x) eqn:E; reflect_tests;
        split_and!; auto; lra. }
    destruct Hxy as (Hx & Hy & Hsel).
    split_and!.
    + destruct Hmem as [Hm | Hm].
      * rewrite Hm. destruct Hsel as [-> | ->]; [by left|].
        right. apply list_elem_of_here.
      * right. by apply list_elem_of_further.
    + eapply Qle_trans; eassumption.
    + intros t Ht. apply elem_of_cons in Ht as [-> | Ht]; [|auto].
      eapply Qle_trans; eassumption.
Qed.

Lemma inject_succ (n : nat) :
  (inject_Z (Z.of_nat (S n)) == inject_Z (Z.of_nat n) + 1)%Q.
Proof. rewrite Nat2Z.inj_succ, <- Z.add_1_r, inject_Z_plus. reflexivity. Qed.

Lemma sum_le_bound (l : list Q) (m : Q) :
  (forall t, t ∈ l -> (t <= m)%Q) ->
  (Py.sum l <= m * inject_Z (Z.of_nat (length l)))%Q.
Proof.
  induction l as [|x l IH]; intros H.
  - cbn [Py.sum length]. change (inject_Z (Z.of_nat 0)) with 0%Q. lra.
  - cbn [Py.sum length]. rewrite inject_succ.
    assert (Hx : (x <= m)%Q) by (apply H; apply list_elem_of_here).
    assert (Hl : (Py.sum l <= m * inject_Z (Z.of_nat (length l)))%Q).
    { apply IH. intros t Ht. apply H. by apply list_elem_of_further. }
    lra.
Qed.

Lemma sum_ge_bound (l : list Q) (m : Q) :
  (forall t, t ∈ l -> (m <= t)%Q) ->
  (m * inject_Z (Z.of_nat (length l)) <= Py.sum l)%Q.
Proof.
  induction l as [|x l IH]; intros H.
  - cbn [Py.sum length]. change (inject_Z (Z.of_nat 0)) with 0%Q. lra.
  - cbn [Py.sum length]. rewrite inject_succ.
    assert (Hx : (m <= x)%Q) by (apply H; apply list_elem_of_here).
    assert (Hl : (m * inject_Z (Z.of_nat (length l)) <= Py.sum l)%Q).
    { apply IH. intros t Ht. apply H. by apply list_elem_of_further. }
    lra.
Qed.

Lemma length_pos_inject {A} (x : A) (l : list A) :
  (0 < inject_Z (Z.of_nat (length (x :: l))))%Q.
Proof.
  change 0%Q with (inject_Z 0). rewrite <- Zlt_Qlt. simpl length. lia.
Qed.

(** X15.  In the performance report, when processing times have been
    recorded, the maximum is one of them, no recorded time exceeds it,
    and the average is at most the maximum; when confidence scores have
    been recorded, the minimum is one of them, no score is below it, and
    the average is at least the minimum. *)
Theorem performance_stats_bounds (self : engine) :
  let st := recognition_stats self in
  let ps := get_performance_stats self in
  (processing_times st <> [] ->
   exists avg mx,
     avg_processing_time ps = Some avg /\
     max_processing_time ps = Some mx /\
     mx ∈ processing_times st /\
     (forall t, t ∈ processing_times st -> (t <= mx)%Q) /\
     (avg <= mx)%Q) /\
  (confidence_scores st <> [] ->
   exists avg mn,
     avg_confidence ps = Some avg /\
     min_confidence ps = Some mn /\
     mn ∈ confidence_scores st /\
     (forall c, c ∈ confidence_scores st -> (mn <= c)%Q) /\
     (mn <= avg)%Q).
Proof.
  intros st ps. subst ps. unfold get_performance_stats. fold st.
  cbn [avg_processing_time max_processing_time avg_confidence
       min_confidence].
  split.
  - destruct (processing_times st) as [|x l]; [congruence|]. intros _.
    destruct (foldl_max_spec l x) as (Hmem & Hge & Hall).
    assert (Hbound : forall t, t ∈ x :: l -> (t <= foldl Py.max x l)%Q).
    { intros t Ht. apply elem_of_cons in Ht as [-> | Ht]; auto. }
    eexists _, _. split_and!; try reflexivity.
    + destruct Hmem as [-> | Hm];
        [apply list_elem_of_here | by apply list_elem_of_further].
    + exact Hbound.
    + apply Qle_shift_div_r; [apply length_pos_inject|].
      apply sum_le_bound. exact Hbound.
  - destruct (confidence_scores st) as [|x l]; [congruence|]. intros _.
    destruct (foldl_min_spec l x) as (Hmem & Hge & Hall).
    assert (Hbound : forall t, t ∈ x :: l -> (foldl Py.min x l <= t)%Q).
    { intros t Ht. apply elem_of_cons in Ht as [-> | Ht]; auto. }
    eexists _, _. split_and!; try reflexivity.
    + destruct Hmem as [-> | Hm];
        [apply list_elem_of_here | by apply list_elem_of_further].
    + exact Hbound.
    + apply Qle_shift_div_l; [apply length_pos_inject|].
      apply sum_ge_bound. exact Hbound.
Qed.

(** X16.  Model selection is stable: applied again to the engine it
    returned, with the same frame count and the same recorded times, it
    changes nothing, so the model cannot flip back without new
    measurements. *)
Theorem adaptive_model_selection_stable (frame_count : Z)
    (self self' : engine) :
  adaptive_model_selection frame_count self = Some self' ->
  adaptive_model_selection frame_count self' = Some self'.
Proof.
  unfold adaptive_model_selection.
  destruct ((frame_count mod 100 =? 0)%Z
            && (10 <? length (processing_times (recognition_stats self)))%nat)
    eqn:Eguard.
  - destruct (Py.mean (Py.last_n 10
                (processing_times (recognition_stats self))))
      as [avg|] eqn:Eavg; [|discriminate]. simpl.
    destruct (Py.ltb 0.5 avg) eqn:E1;
      destruct (String.eqb (current_model self) "cnn") eqn:E2;
      destruct (Py.ltb avg 0.2) eqn:E3;
      destruct (String.eqb (current_model self) "hog") eqn:E4;
      simpl; intros H; simplify_eq;
      cbn [recognition_stats current_model set_current_model];
      rewrite Eguard, Eavg; simpl;
      rewrite ?E1, ?E2, ?E3, ?E4; simpl; try reflexivity;
      reflect_tests; try lra; try congruence.
  - intros H. simplify_eq. rewrite Eguard. reflexivity.
Qed.

(** ** Registration *)

Example is_image_file_upper : is_image_file "IMG_0001.JPG" = true.
Proof. reflexivity. Qed.

Example is_image_file_jpeg : is_image_file "face.jpeg" = true.
Proof. reflexivity. Qed.

Example is_image_file_other : is_image_file "notes.txt" = false.
Proof. reflexivity. Qed.

Example is_image_file_no_dot : is_image_file "jpg" = false.
Proof. reflexivity. Qed.

Lemma dict_get_set_same {V} (k : string) (v : V) (d : list (string * V)) :
  dict_get k (dict_set k v d) = Some v.
Proof.
  induction d as [|[k' v'] d IH]; simpl.
  - rewrite String.eqb_refl. reflexivity.
  - destruct (String.eqb k' k) eqn:E; simpl; rewrite E; auto.
Qed.

Lemma dict_get_set_other {V} (k k0 : string) (v : V)
    (d : list (string * V)) :
  k0 <> k -> dict_get k0 (dict_set k v d) = dict_get k0 d.
Proof.
  intros Hne. induction d as [|[k' v'] d IH]; simpl.
  - destruct (String.eqb_spec k k0); [congruence | reflexivity].
  - destruct (String.eqb_spec k' k) as [->|Hk]; simpl.
    + destruct (String.eqb_spec k k0); [congruence | reflexivity].
    + destruct (String.eqb k' k0); auto.
Qed.

Lemma dict_set_keys {V} (k : string) (v : V) (d : list (string * V)) :
  map fst (dict_set k v d)
  = match dict_get k d with
    | Some _ => map fst d
    | None => map fst d ++ [k]
    end.
Proof.
  induction d as [|[k' v'] d IH]; simpl.
  - reflexivity.
  - destruct (String.eqb_spec k' k) as [->|Hk]; simpl.
    + reflexivity.
    + rewrite IH. destruct (dict_get k d); reflexivity.
Qed.

Lemma dict_get_None_keys {V} (k : string) (d : list (string * V)) :
  dict_get k d = None -> k ∉ map fst d.
Proof.
  induction d as [|[k' v'] d IH]; simpl; intros H.
  - apply not_elem_of_nil.
  - destruct (String.eqb_spec k' k) as [->|Hk]; [discriminate|].
    apply not_elem_of_cons. split; [congruence | auto].
Qed.

Lemma dict_set_elem {V} (k : string) (v : V) (d : list (string * V)) :
  (k, v) ∈ dict_set k v d.
Proof.
  induction d as [|[k' v'] d IH]; simpl.
  - apply list_elem_of_here.
  - destruct (String.eqb_spec k' k) as [->|Hk].
    + apply list_elem_of_here.
    + by apply list_elem_of_further.
Qed.

Lemma count_encodings_set (k : string) (v : list encoding)
    (d : list (string * list encoding)) :
  (count_encodings (dict_set k v d) + length (default [] (dict_get k d))
   = count_encodings d + length v)%nat.
Proof.
  unfold count_encodings.
  induction d as [|[k' v'] d IH]; simpl.
  - lia.
  - destruct (String.eqb k' k); simpl; lia.
Qed.

(** X17.  Saving the encodings of a roll number replaces what the file
    held for that roll number and nothing else: afterwards the file maps
    the roll number to the new list, every other roll number to what it
    had, the roll numbers keep their order (a new one goes last) and stay
    distinct.  An encodings file that is missing counts as empty; one
    that does not load is left alone and [False] is returned. *)
Theorem save_student_encodings_replaces (student_roll : string)
    (encodings : list encoding) (d : disk) :
  match disk_encodings d with
  | Unreadable => save_student_encodings student_roll encodings d = (d, false)
  | _ =>
      let old := default [] (json_load (disk_encodings d)) in
      exists all_encodings,
        save_student_encodings student_roll encodings d
        = ({| disk_encodings := Content all_encodings;
              disk_students := disk_students d;
              disk_metadata := disk_metadata d |}, true) /\
        dict_get student_roll all_encodings = Some encodings /\
        (forall roll, roll <> student_roll ->
           dict_get roll all_encodings = dict_get roll old) /\
        map fst all_encodings
        = match dict_get student_roll old with
          | Some _ => map fst old
          | None => map fst old ++ [student_roll]
          end /\
        (NoDup (map fst old) -> NoDup (map fst all_encodings))
  end.
Proof.
  unfold save_student_encodings.
  destruct (disk_encodings d) as [| |all_old]; simpl; [|reflexivity|].
  - exists [(student_roll, encodings)]. simpl.
    rewrite String.eqb_refl. split_and!; try reflexivity.
    + intros roll Hne.
      destruct (String.eqb_spec student_roll roll); [congruence|reflexivity].
    + intros _. repeat constructor. apply not_elem_of_nil.
  - exists (dict_set student_roll encodings all_old).
    split_and!; try reflexivity.
    + apply dict_get_set_same.
    + intros roll Hne. by apply dict_get_set_other.
    + rewrite dict_set_keys. destruct (dict_get student_roll all_old);
        reflexivity.
    + intros Hnd. rewrite dict_set_keys.
      destruct (dict_get student_roll all_old) eqn:E; [exact Hnd|].
      apply NoDup_app. split_and!; [exact Hnd | | repeat constructor].
      * intros x Hx Hx'. apply list_elem_of_singleton in Hx'. subst x.
        by apply dict_get_None_keys in E.
      * apply not_elem_of_nil.
Qed.

Section RegistrationProps.

Variable dist : encoding -> encoding -> option Q.
Variable stdev : list Q -> Q.
Variable cvtColor : image -> option image.
Variable face_locations : image -> string -> option (list face_location).
Variable face_encodings :
  image -> list face_location -> option (list encoding).

Lemma max_by_spec {A} (key : A -> Z) (l : list A) :
  forall best,
    max_by key best l ∈ best :: l /\
    (forall x, x ∈ best :: l -> (key x <= key (max_by key best l))%Z).
Proof.
  induction l as [|y l IH]; intros best; simpl.
  - split; [apply list_elem_of_here|].
    intros x Hx. apply list_elem_of_singleton in Hx. subst. lia.
  - destruct (key best <? key y)%Z eqn:E.
    + apply Z.ltb_lt in E. destruct (IH y) as [Hin Hmax]. split.
      * by apply list_elem_of_further.
      * intros x Hx. apply elem_of_cons in Hx as [-> | Hx]; [|auto].
        pose proof (Hmax y (list_elem_of_here _ _)). lia.
    + apply Z.ltb_ge in E. destruct (IH best) as [Hin Hmax]. split.
      * apply elem_of_cons in Hin as [-> | Hin];
          [apply list_elem_of_here
          | by apply list_elem_of_further, list_elem_of_further].
      * intros x Hx. apply elem_of_cons in Hx as [-> | Hx].
        -- apply Hmax, list_elem_of_here.
        -- apply elem_of_cons in Hx as [-> | Hx].
           ++ pose proof (Hmax best (list_elem_of_here _ _)). lia.
           ++ by apply Hmax, list_elem_of_further.
Qed.

(** X18.  An image in which several faces are found contributes the
    encoding of one box only, a box of the largest area among those
    found. *)
Theorem process_image_largest_face (image_ rgb_image : image)
    (loc loc' : face_location) (locs : list face_location)
    (enc : encoding) :
  cvtColor image_ = Some rgb_image ->
  face_locations rgb_image "hog" = Some (loc :: loc' :: locs) ->
  process_image cvtColor face_locations face_encodings (Some image_)
  = Some enc ->
  exists largest rest,
    largest ∈ loc :: loc' :: locs /\
    (forall l, l ∈ loc :: loc' :: locs -> (area l <= area largest)%Z) /\
    face_encodings rgb_image [largest] = Some (enc :: rest).
Proof.
  intros Hcvt Hloc. unfold process_image. rewrite Hcvt, Hloc.
  cbn [length Nat.ltb Nat.leb].
  destruct (max_by_spec area (loc' :: locs) loc) as [Hin Hmax].
  destruct (face_encodings rgb_image [max_by area loc (loc' :: locs)])
    as [[|e rest]|] eqn:Henc; try discriminate.
  intros H. simplify_eq. eauto.
Qed.

Lemma scan_images_counts :
  forall (image_files : list (string * option image))
         (encodings0 : list encoding) (p0 f0 : nat)
         (encodings : list encoding) (p f : nat),
    scan_images cvtColor face_locations face_encodings image_files
      encodings0 p0 f0 = (encodings, p, f) ->
    (length encodings + p0 = length encodings0 + p)%nat /\
    (p + f = p0 + f0 + length image_files)%nat.
Proof.
  induction image_files as [|[path img] rest IH];
    intros encodings0 p0 f0 encodings p f H; simpl in H.
  - simplify_eq. simpl. lia.
  - destruct (process_image cvtColor face_locations face_encodings img).
    + apply IH in H. rewrite length_app in H. simpl in *. lia.
    + apply IH in H. simpl. lia.
Qed.

(** X19.  In the loop over the image files every file is counted once,
    as processed or as failed, and one encoding is kept per processed
    file; so with at least one image file the success rate printed after
    the loop never divides by zero. *)
Theorem scan_images_accounts (image_files : list (string * option image))
    (encodings : list encoding) (processed_count failed_count : nat) :
  scan_images cvtColor face_locations face_encodings image_files [] 0 0
  = (encodings, processed_count, failed_count) ->
  length encodings = processed_count /\
  (processed_count + failed_count = length image_files)%nat /\
  (image_files <> [] -> (processed_count + failed_count)%nat <> 0%nat).
Proof.
  intros H. apply scan_images_counts in H as [H1 H2]. simpl in *.
  split_and!; [lia | lia |].
  intros Hne. destruct image_files; [congruence | simpl in *; lia].
Qed.

Lemma append_encodings_total (roll : string) (student : student_info) :
  forall (rest : list encoding) (i total : nat) (e e' : engine)
         (total' : nat),
    append_encodings roll student i rest total e = Some (e', total') ->
    total' = (total + length rest)%nat.
Proof.
  induction rest as [|enc rest IH]; intros i total e e' total' H;
    simpl in H.
  - simplify_eq. simpl. lia.
  - destruct (stu_name student); [|discriminate]. simpl in H.
    apply IH in H. simpl. lia.
Qed.

Lemma load_items_total (students_data : gmap string student_info) :
  forall (items : list (string * list encoding)) (total : nat)
         (e e' : engine) (total' : nat),
    load_items items students_data total e = Some (e', total') ->
    (total' <= total + count_encodings items)%nat.
Proof.
  unfold count_encodings.
  induction items as [|[roll encs] items IH]; intros total e e' total' H;
    simpl in H.
  - simplify_eq. simpl. lia.
  - destruct (students_data !! roll) as [student|].
    + destruct (append_encodings roll student 0 encs total e)
        as [[e1 t1]|] eqn:Happ; [|discriminate]. simpl in H.
      apply append_encodings_total in Happ. apply IH in H. simpl. lia.
    + apply IH in H. simpl. lia.
Qed.

(** The store after a load is never larger than the number of encodings
    in the encodings file. *)
Lemma load_encodings_size (now : string)
    (encodings_data : list (string * list encoding))
    (students_file : file (gmap string student_info)) (e : engine) :
  (length (known_encodings
             (load_encodings dist stdev now (Content encodings_data)
                students_file e))
   <= count_encodings encodings_data)%nat.
Proof.
  unfold load_encodings.
  destruct students_file as [| |students_data];
    cbn [exists_ json_load andb]; try (simpl; lia).
  destruct (load_items encodings_data students_data 0 (clear_known e))
    as [[e1 total]|] eqn:Hload; [|simpl; lia].
  pose proof (load_items_total _ _ _ _ _ _ Hload) as Hle.
  apply load_items_fields in Hload as [_ Htot]. simpl in Htot.
  destruct (10 <=? total)%nat; [|lia].
  destruct (auto_calibrate_known dist stdev now e1) as (H1 & _).
  rewrite H1. lia.
Qed.

(** X20.  When [process_student_images] returns [False], nothing has
    changed: the engine and the three files are as before.  This covers a
    missing folder, a folder without image files, images none of which
    yields an encoding, and an encodings file that does not load. *)
Theorem process_student_images_failure (now : string)
    (student_roll : string)
    (image_folder : option (list (string * option image)))
    (self self' : engine) (d d' : disk) :
  process_student_images dist stdev cvtColor face_locations face_encodings
    now student_roll image_folder self d = (self', d', false) ->
  self' = self /\ d' = d.
Proof.
  unfold process_student_images. intros H.
  repeat (case_match; simplify_eq/=); auto.
  all: match goal with
       | H : save_student_encodings _ _ _ = _ |- _ =>
           unfold save_student_encodings in H;
           repeat (case_match; simplify_eq/=); auto
       end.
Qed.

(** What a successful registration has done, in full. *)
Lemma process_student_images_true (now : string)
    (student_roll : string)
    (image_folder : option (list (string * option image)))
    (self self' : engine) (d d' : disk) :
  process_student_images dist stdev cvtColor face_locations face_encodings
    now student_roll image_folder self d = (self', d', true) ->
  exists listing encodings all_encodings m,
    image_folder = Some listing /\
    encodings <> [] /\
    (length encodings <= length listing)%nat /\
    disk_encodings d' = Content all_encodings /\
    dict_get student_roll all_encodings = Some encodings /\
    (student_roll, encodings) ∈ all_encodings /\
    disk_students d' = disk_students d /\
    disk_metadata d' = Some m /\
    total_students m = length all_encodings /\
    total_encodings m = count_encodings all_encodings /\
    face_detection_model m = current_model self /\
    distance_threshold m = face_distance_threshold self /\
    meta_confidence_threshold m = confidence_threshold self /\
    self' = load_encodings dist stdev now (disk_encodings d')
              (disk_students d') self /\
    (length (known_encodings self') <= total_encodings m)%nat.
Proof.
  unfold process_student_images. intros H.
  destruct image_folder as [listing|]; [|discriminate].
  destruct (List.filter (fun f => is_image_file (fst f)) listing)
    as [|f0 files] eqn:Hfiles; [discriminate|].
  destruct (scan_images cvtColor face_locations face_encodings
              (f0 :: files) [] 0 0) as [[encodings p] f] eqn:Hscan.
  apply scan_images_counts in Hscan as [Hlen Hsum]. simpl in Hlen, Hsum.
  destruct (p + f =? 0)%nat; [discriminate|].
  destruct (p =? 0)%nat eqn:Ep; [discriminate|].
  apply Nat.eqb_neq in Ep.
  assert (Hfl : (length (f0 :: files) <= length listing)%nat).
  { rewrite <- Hfiles. apply List.filter_length_le. }
  simpl in Hfl.
  assert (Hne : encodings <> []).
  { intros ->. simpl in Hlen. lia. }
  assert (Hle : (length encodings <= length listing)%nat) by lia.
  clear Hlen Hsum Ep Hfl.
  unfold save_student_encodings, update_model_metadata in H.
  destruct (disk_encodings d) as [| |all_old] eqn:Hd;
    simpl in H; simplify_eq.
  - eexists listing, encodings, _, _.
    split_and!; try reflexivity; try assumption.
    + simpl. rewrite String.eqb_refl. reflexivity.
    + apply list_elem_of_here.
    + simpl. apply load_encodings_size.
  - eexists listing, encodings, _, _.
    split_and!; try reflexivity; try assumption.
    + apply dict_get_set_same.
    + apply dict_set_elem.
    + simpl. apply load_encodings_size.
Qed.


(** X22.  Registration makes a student recognisable only through the
    students file.  After [process_student_images] returns [True]: if
    every student record has a name and there is one for the roll
    number, every new encoding is in the store; if the students file
    has no record for the roll number, the roll number is nowhere in the
    store although its encodings are on disk. *)
Theorem process_student_images_store (now : string)
    (student_roll : string)
    (image_folder : option (list (string * option image)))
    (self self' : engine) (d d' : disk)
    (students_data : gmap string student_info) :
  process_student_images dist stdev cvtColor face_locations face_encodings
    now student_roll image_folder self d = (self', d', true) ->
  disk_students d = Content students_data ->
  exists all_encodings encodings,
    disk_encodings d' = Content all_encodings /\
    dict_get student_roll all_encodings = Some encodings /\
    encodings <> [] /\
    ((forall roll student, students_data !! roll = Some student ->
        is_Some (stu_name student)) ->
     is_Some (students_data !! student_roll) ->
     forall enc, enc ∈ encodings -> enc ∈ known_encodings self') /\
    (students_data !! student_roll = None ->
     student_roll ∉ known_rolls self').
Proof.
  intros H Hstu.
  destruct (process_student_images_true now student_roll
              image_folder self self' d d' H)
    as (listing & encodings & all_encodings & m & _ & Hne & _ & Hfile
        & Hget & Hin & Hs & _ & _ & _ & _ & _ & _ & -> & _).
  rewrite Hstu in Hs.
  exists all_encodings, encodings. split_and!; try assumption.
  - intros Hnames Hrec enc Henc.
    rewrite Hfile, Hs. unfold load_encodings.
    cbn [exists_ json_load andb].
    destruct (load_items_retains students_data Hnames all_encodings 0
                (clear_known self)) as (e1 & total & Hload & Hknown).
    rewrite Hload. simpl in Hknown.
    assert (Hk : enc ∈ known_encodings e1).
    { rewrite Hknown.
      eapply with_student_elem; [exact Hin | exact Hrec | exact Henc]. }
    destruct (10 <=? total)%nat; [|exact Hk].
    destruct (auto_calibrate_known dist stdev now e1) as (H1 & _).
    rewrite H1. exact Hk.
  - intros Hnone Hroll. rewrite Hfile, Hs in Hroll.
    destruct (load_encodings_cases dist stdev now (Content all_encodings)
                (Content students_data) self)
      as [(_ & _ & H3 & _) | (D & S & HD & HS & [Ha Hd])].
    + rewrite H3 in Hroll. by apply elem_of_nil in Hroll.
    + simplify_eq.
      apply list_elem_of_lookup in Hroll as [i Hi].
      assert (Hlt : (i < length (known_encodings
                (load_encodings dist stdev now (Content D)
                   (Content S) self)))%nat).
      { destruct Ha as (_ & Hr & _). rewrite <- Hr.
        eapply lookup_lt_Some. exact Hi. }
      destruct (Hd i Hlt)
        as (x & r & st & n & md & encs & _ & Hr & _ & _ & Hst & _).
      congruence.
Qed.

End RegistrationProps.

(** * Examples for the further properties *)

Lemma assess_image_quality_score_range_example :
  (0.27 <= overall_score
             (assess_image_quality Sample.sharp Sample.bright initial
                Sample.frame (0, 4, 2, 0)%Z)
        <= 1)%Q.
Proof.
  apply (assess_image_quality_score_range Sample.sharp Sample.bright
           initial Sample.frame (0, 4, 2, 0)%Z).
  - vm_compute. discriminate.
  - reflexivity.
  - vm_compute. discriminate.
Defined.


Lemma recognize_faces_results_in_order_example :
  exists r0 r1,
    snd (recognize_faces Sample.l1 Sample.bgr2rgb Sample.two_faces
           Sample.encode Sample.sharp Sample.bright Sample.frame true
           0.3 Sample.store2) = [r0; r1] /\
    face_id r0 = 0%nat /\ face_id r1 = 1%nat /\
    location r1 = (0, 4, 2, 2)%Z.
Proof.
  pose (out := recognize_faces Sample.l1 Sample.bgr2rgb Sample.two_faces
                 Sample.encode Sample.sharp Sample.bright Sample.frame
                 true 0.3 Sample.store2).
  destruct (recognize_faces_results_in_order Sample.l1 Sample.bgr2rgb
              Sample.two_faces Sample.encode Sample.sharp Sample.bright
              Sample.frame true 0.3 Sample.store2 (fst out) (snd out))
    as (rgb & locs & encs & _ & Hloc & _ & _ & Hnum).
  - vm_compute. reflexivity.
  - vm_compute. discriminate.
  - vm_compute in Hloc. inversion Hloc; subst locs.
    eexists _, _. split; [vm_compute; reflexivity|].
    split; [|split].
    + eapply (Hnum 0%nat). vm_compute. reflexivity.
    + eapply (Hnum 1%nat). vm_compute. reflexivity.
    + reflexivity.
Defined.

Lemma recognize_faces_confidence_samples_example :
  confidence_scores
    (recognition_stats
       (fst (recognize_faces Sample.l1 Sample.bgr2rgb Sample.two_faces
               Sample.encode Sample.sharp Sample.bright Sample.frame true
               0.3 Sample.store2)))
  = [1.0%Q; 1.0%Q].
Proof.
  pose (out := recognize_faces Sample.l1 Sample.bgr2rgb Sample.two_faces
                 Sample.encode Sample.sharp Sample.bright Sample.frame
                 true 0.3 Sample.store2).
  destruct (recognize_faces_confidence_samples Sample.l1 Sample.bgr2rgb
              Sample.two_faces Sample.encode Sample.sharp Sample.bright
              Sample.frame true 0.3 Sample.store2 (fst out) (snd out))
    as [Hscores _].
  - vm_compute. reflexivity.
  - vm_compute. discriminate.
  - subst out. rewrite Hscores. vm_compute. reflexivity.
Defined.

Lemma recognize_faces_malformed_store_example :
  recognize_faces Fixture.dist1 Sample.bgr2rgb Sample.two_faces
    Sample.encode Sample.sharp Sample.bright Sample.frame true 0.3
    Fixture.mixed_store
  = (set_recognition_stats
       (add_attempt (recognition_stats Fixture.mixed_store))
       Fixture.mixed_store, []).
Proof.
  eapply (recognize_faces_malformed_store Fixture.dist1 Sample.bgr2rgb
            Sample.two_faces Sample.encode Sample.sharp Sample.bright
            Sample.frame _ true 0.3 Fixture.mixed_store [1%Q; 2%Q]).
  - vm_compute. apply list_elem_of_further, list_elem_of_here.
  - intros query. reflexivity.
  - reflexivity.
  - reflexivity.
  - reflexivity.
Defined.

Lemma calibrated_gate_is_distance_example :
  exists r self',
    recognize_face Sample.l1 Sample.sharp Sample.bright Sample.frame
      false 0 [0.1%Q] (0, 2, 2, 0)%Z
      (fst (auto_calibrate Sample.l1 Sample.stdev_equal "t" Sample.store5))
    = (self', Some r) /\
    recognized r = true.
Proof.
  destruct (calibrated_gate_is_distance Sample.l1 Sample.stdev_equal
              Sample.sharp Sample.bright "t" Sample.store5 Sample.frame
              false 0 [0.1%Q] (0, 2, 2, 0)%Z
              [0.1%Q; 0%Q; 0.9%Q; 1%Q; 1.9%Q])
    as (idx & d & r & self' & Harg & Hd & Hrun & Hiff).
  - vm_compute. eauto.
  - vm_compute. auto.
  - vm_compute. reflexivity.
  - exists r, self'. split; [exact Hrun|].
    apply Hiff. vm_compute in Harg. inversion Harg; subst idx.
    vm_compute in Hd. inversion Hd; subst d.
    vm_compute. discriminate.
Defined.

Lemma auto_calibrate_one_person_example :
  auto_calibrate Sample.l1 Sample.stdev_equal "t" Fixture.one_person
  = (Fixture.one_person, None).
Proof.
  apply (auto_calibrate_one_person Sample.l1 Sample.stdev_equal "t"
           Fixture.one_person "r1").
  vm_compute. repeat constructor.
Defined.

Lemma auto_calibrate_one_encoding_each_example :
  auto_calibrate Sample.l1 Sample.stdev_equal "t" Fixture.five_persons
  = (Fixture.five_persons, None).
Proof.
  apply (auto_calibrate_one_encoding_each Sample.l1 Sample.stdev_equal
           "t" Fixture.five_persons).
  vm_compute. apply (bool_decide_unpack _). vm_compute. exact I.
Defined.

Lemma load_encodings_missing_name_example :
  load_encodings Sample.l1 Sample.stdev_equal "t"
    (Content Sample.encodings_json) (Content Fixture.nameless_json)
    Sample.store2
  = clear_known Sample.store2.
Proof.
  apply (load_encodings_missing_name Sample.l1 Sample.stdev_equal "t"
           Sample.encodings_json Fixture.nameless_json Sample.store2
           "r1" [[1%Q; 2%Q; 3%Q]; [1%Q; 2%Q]]
           {| stu_name := None; stu_registration_date := None;
              stu_role := None |}).
  - apply list_elem_of_here.
  - discriminate.
  - vm_compute. reflexivity.
  - reflexivity.
Defined.

Lemma adaptive_model_selection_stable_example :
  exists self',
    adaptive_model_selection 100 Sample.eleven_slow = Some self' /\
    adaptive_model_selection 100 self' = Some self'.
Proof.
  eexists. split; [vm_compute; reflexivity|].
  apply (adaptive_model_selection_stable 100 Sample.eleven_slow).
  vm_compute. reflexivity.
Defined.

Lemma process_image_largest_face_example :
  exists largest rest,
    area largest = 6%Z /\
    Sample.encode Sample.frame [largest] = Some ([2 # 2]%Q :: rest).
Proof.
  destruct (process_image_largest_face Sample.bgr2rgb Fixture.three_faces
              Sample.encode Sample.frame Sample.frame
              (0, 2, 2, 0)%Z (0, 5, 2, 2)%Z [(0, 7, 1, 5)%Z] [2 # 2]%Q)
    as (largest & rest & Hin & Hmax & Henc).
  - reflexivity.
  - reflexivity.
  - vm_compute. reflexivity.
  - exists largest, rest. split; [|exact Henc].
    pose proof (Hmax (0, 5, 2, 2)%Z
                  (list_elem_of_further _ _ _ (list_elem_of_here _ _)))
      as Hge.
    apply elem_of_cons in Hin as [-> | Hin]; [cbv [area] in Hge; lia|].
    apply elem_of_cons in Hin as [-> | Hin]; [reflexivity|].
    apply list_elem_of_singleton in Hin. subst largest.
    cbv [area] in Hge. lia.
Defined.

Lemma scan_images_accounts_example :
  exists encodings processed_count failed_count,
    scan_images Sample.bgr2rgb Fixture.three_faces Sample.encode
      (List.filter (fun f => is_image_file (fst f)) Fixture.folder)
      [] 0 0 = (encodings, processed_count, failed_count) /\
    (processed_count + failed_count = 2)%nat.
Proof.
  eexists _, _, _. split; [vm_compute; reflexivity|].
  eapply (scan_images_accounts Sample.bgr2rgb Fixture.three_faces
            Sample.encode
            (List.filter (fun f => is_image_file (fst f)) Fixture.folder)).
  vm_compute. reflexivity.
Defined.

Lemma process_student_images_failure_example :
  exists self' d',
    process_student_images Sample.l1 Sample.stdev_equal Sample.bgr2rgb
      Fixture.three_faces Sample.encode "t" "r1" (Some Fixture.folder)
      Sample.store2 Fixture.broken_disk = (self', d', false) /\
    self' = Sample.store2 /\ d' = Fixture.broken_disk.
Proof.
  eexists _, _. split; [vm_compute; reflexivity|].
  eapply (process_student_images_failure Sample.l1 Sample.stdev_equal
            Sample.bgr2rgb Fixture.three_faces Sample.encode "t" "r1"
            (Some Fixture.folder)).
  vm_compute. reflexivity.
Defined.


Lemma process_student_images_store_example :
  "r9" ∉ known_rolls
           (fst (fst (process_student_images Sample.l1 Sample.stdev_equal
                        Sample.bgr2rgb Fixture.three_faces Sample.encode
                        "t" "r9" (Some Fixture.folder) initial
                        Fixture.stranger_disk))).
Proof.
  pose (out := process_student_images Sample.l1 Sample.stdev_equal
                 Sample.bgr2rgb Fixture.three_faces Sample.encode "t"
                 "r9" (Some Fixture.folder) initial Fixture.stranger_disk).
  destruct (process_student_images_store Sample.l1 Sample.stdev_equal
              Sample.bgr2rgb Fixture.three_faces Sample.encode "t" "r9"
              (Some Fixture.folder) initial (fst (fst out))
              Fixture.stranger_disk (snd (fst out)) ∅)
    as (all_encodings & encodings & _ & _ & _ & _ & Hnone).
  - vm_compute. reflexivity.
  - reflexivity.
  - apply Hnone. reflexivity.
Defined.
